(** * trader-backend: the schema migration manager

    A shallow embedding of [database/db.go] (the [DatabaseManager], its
    migration catalog and [RunMigrations]) and of the start-up sequence of
    [cmd/t-backend/main.go], together with the properties of the migration
    subsystem.

    The Go code talks to SQLite through [database/sql].  The store is
    modelled by a small relational engine that covers the statements the
    program sends ([CREATE TABLE], [CREATE INDEX], [INSERT], and the
    [SELECT COUNT( * )] point query), with transactions as a working copy of
    the committed store.  Failures that come from outside the program
    (I/O errors, a locked file) are injected through a tape of faults, one
    entry per driver call. *)

From Stdlib Require Import ZArith String Ascii List Lia Sorted DecimalString.
From stdpp Require Import base tactics option list strings sorting.
Import ListNotations.
Local Open Scope Z_scope.
Local Open Scope string_scope.

(** ** The relational store *)

Module Sqlite.

Inductive Value :=
| VNull
| VInt (n : Z)
| VText (s : string)
| VTime (t : Z).

Inductive ColType := INTEGER | TEXT | DATETIME.

(** The only default expression the schema uses. *)
Inductive DefaultExpr := CURRENT_TIMESTAMP.

Record Column := {
  col_name : string;
  col_type : ColType;
  col_primary_key_autoincrement : bool;
  col_not_null : bool;
  col_unique : bool;
  col_default : option DefaultExpr
}.

(** A row maps column names to values, in the column order of its table. *)
Definition Row := list (string * Value).

Record Table := {
  tbl_name : string;
  tbl_cols : list Column;
  tbl_rows : list Row;
  tbl_seq : Z
}.

Record Index := {
  idx_name : string;
  idx_table : string;
  idx_col : string
}.

(** The contents of the database file: the tables and the indexes, in
    creation order (the order of [sqlite_master]). *)
Record Store := {
  tables : list Table;
  indexes : list Index
}.

Definition empty : Store := {| tables := []; indexes := [] |}.

#[global] Instance Value_eq_dec : EqDecision Value.
Proof. solve_decision. Defined.
#[global] Instance ColType_eq_dec : EqDecision ColType.
Proof. solve_decision. Defined.
#[global] Instance DefaultExpr_eq_dec : EqDecision DefaultExpr.
Proof. solve_decision. Defined.
#[global] Instance Column_eq_dec : EqDecision Column.
Proof. solve_decision. Defined.

(** The statements the program sends, as syntax trees of their SQL text. *)
Inductive Stmt :=
| CREATE_TABLE (if_not_exists : bool) (name : string) (cols : list Column)
| CREATE_INDEX (name table col : string)
| INSERT (or_ignore : bool) (table : string) (cols : list string)
         (vals : list Value).

(** A script is what one [Exec] call receives: statements run one after
    the other, stopping at the first that fails. *)
Definition SQL := list Stmt.

Inductive result (A : Type) :=
| Done (a : A)
| Failed (msg : string).
Arguments Done {A} a.
Arguments Failed {A} msg.

Definition field (r : Row) (c : string) : option Value :=
  match find (fun kv => String.eqb (fst kv) c) r with
  | Some kv => Some (snd kv)
  | None => None
  end.

Definition find_table (name : string) (s : Store) : option Table :=
  find (fun t => String.eqb (tbl_name t) name) (tables s).

Definition has_column (t : Table) (c : string) : bool :=
  existsb (fun col => String.eqb (col_name col) c) (tbl_cols t).

Definition has_index (name : string) (s : Store) : bool :=
  existsb (fun i => String.eqb (idx_name i) name) (indexes s).

Fixpoint replace_table (t : Table) (ts : list Table) : list Table :=
  match ts with
  | [] => []
  | t0 :: rest =>
      if String.eqb (tbl_name t0) (tbl_name t) then t :: rest
      else t0 :: replace_table t rest
  end.

(** The value given to column [c] by [INSERT INTO t (cols) VALUES (vals)]. *)
Fixpoint supplied (c : string) (cols : list string) (vals : list Value)
  : option Value :=
  match cols, vals with
  | c0 :: cols', v :: vals' =>
      if String.eqb c0 c then Some v else supplied c cols' vals'
  | _, _ => None
  end.

Definition Value_eqb (a b : Value) : bool := bool_decide (a = b).

(** The value stored in column [col] of the new row. *)
Definition cell (now : Z) (t : Table) (cols : list string)
    (vals : list Value) (col : Column) : Value :=
  match supplied (col_name col) cols vals with
  | Some VNull | None =>
      if col_primary_key_autoincrement col then VInt (tbl_seq t + 1)
      else match supplied (col_name col) cols vals, col_default col with
           | None, Some CURRENT_TIMESTAMP => VTime now
           | _, _ => VNull
           end
  | Some v => v
  end.

Definition new_row (now : Z) (t : Table) (cols : list string)
    (vals : list Value) : Row :=
  map (fun col => (col_name col, cell now t cols vals col)) (tbl_cols t).

Inductive Violation :=
| NotNull (c : string)
| Unique (c : string).

(** The first constraint of [t] that row [r] violates, if any. *)
Fixpoint violation (t : Table) (r : Row) (cols : list Column)
  : option Violation :=
  match cols with
  | [] => None
  | col :: rest =>
      let c := col_name col in
      match field r c with
      | None | Some VNull =>
          if col_not_null col then Some (NotNull c) else violation t r rest
      | Some v =>
          if (col_unique col || col_primary_key_autoincrement col)
             && existsb (fun r0 => match field r0 c with
                                   | Some v0 => Value_eqb v0 v
                                   | None => false
                                   end) (tbl_rows t)
          then Some (Unique c)
          else violation t r rest
      end
  end.

Definition violation_message (t : string) (v : Violation) : string :=
  match v with
  | NotNull c => "NOT NULL constraint failed: " ++ t ++ "." ++ c
  | Unique c => "UNIQUE constraint failed: " ++ t ++ "." ++ c
  end.

Definition row_id (t : Table) (r : Row) : Z :=
  match find (fun col => col_primary_key_autoincrement col) (tbl_cols t) with
  | Some col => match field r (col_name col) with
                | Some (VInt n) => Z.max n (tbl_seq t)
                | _ => tbl_seq t
                end
  | None => tbl_seq t
  end.

Definition exec_stmt (now : Z) (st : Stmt) (s : Store) : result Store :=
  match st with
  | CREATE_TABLE if_not_exists name cols =>
      match find_table name s with
      | Some _ =>
          if if_not_exists then Done s
          else Failed ("table " ++ name ++ " already exists")
      | None =>
          if has_index name s
          then Failed ("there is already an index named " ++ name)
          else Done {| tables := tables s ++
                                 [{| tbl_name := name; tbl_cols := cols;
                                     tbl_rows := []; tbl_seq := 0 |}];
                       indexes := indexes s |}
      end
  | CREATE_INDEX name table col =>
      if has_index name s
      then Failed ("index " ++ name ++ " already exists")
      else match find_table name s, find_table table s with
           | Some _, _ => Failed ("there is already a table named " ++ name)
           | None, None => Failed ("no such table: main." ++ table)
           | None, Some t =>
               if has_column t col
               then Done {| tables := tables s;
                            indexes := indexes s ++
                                       [{| idx_name := name;
                                           idx_table := table;
                                           idx_col := col |}] |}
               else Failed ("no such column: " ++ col)
           end
  | INSERT or_ignore table cols vals =>
      match find_table table s with
      | None => Failed ("no such table: " ++ table)
      | Some t =>
          match find (fun c => negb (has_column t c)) cols with
          | Some c =>
              Failed ("table " ++ table ++ " has no column named " ++ c)
          | None =>
              if negb (Nat.eqb (List.length cols) (List.length vals))
              then Failed "values do not match the column list"
              else
                let r := new_row now t cols vals in
                match violation t r (tbl_cols t) with
                | Some v =>
                    (* [OR IGNORE] drops the row; the id it was given stays
                       used up in the counter of the table *)
                    if or_ignore
                    then Done {| tables :=
                                   replace_table
                                     {| tbl_name := tbl_name t;
                                        tbl_cols := tbl_cols t;
                                        tbl_rows := tbl_rows t;
                                        tbl_seq := row_id t r |} (tables s);
                                 indexes := indexes s |}
                    else Failed (violation_message table v)
                | None =>
                    Done {| tables :=
                              replace_table
                                {| tbl_name := tbl_name t;
                                   tbl_cols := tbl_cols t;
                                   tbl_rows := tbl_rows t ++ [r];
                                   tbl_seq := row_id t r |} (tables s);
                            indexes := indexes s |}
                end
          end
      end
  end.

(** Runs a script; returns the store reached and the error of the statement
    that stopped it.  The statements before the failing one have taken
    effect in the returned store. *)
Fixpoint exec (now : Z) (sql : SQL) (s : Store) : Store * option string :=
  match sql with
  | [] => (s, None)
  | st :: rest =>
      match exec_stmt now st s with
      | Done s' => exec now rest s'
      | Failed msg => (s, Some msg)
      end
  end.

(** [SELECT COUNT( * ) FROM table WHERE col = v]. *)
Definition select_count (table col : string) (v : Value) (s : Store)
  : result Z :=
  match find_table table s with
  | None => Failed ("no such table: " ++ table)
  | Some t =>
      if has_column t col
      then Done (Z.of_nat (List.length
                   (List.filter (fun r => match field r col with
                                          | Some v0 => Value_eqb v0 v
                                          | None => false
                                          end) (tbl_rows t))))
      else Failed ("no such column: " ++ col)
  end.

(** The names of the tables made by [CREATE TABLE], in creation order.  The
    bookkeeping table [sqlite_sequence] of SQLite is not among them: its
    counters are the [tbl_seq] of the tables. *)
Definition table_names (s : Store) : list string :=
  map tbl_name (tables s).

End Sqlite.

(** ** Go values: errors and log records *)

(** An argument of a format string other than the wrapped error. *)
Inductive fmt_arg :=
| AInt (n : Z)
| AStr (s : string).

(** An [error] is either an error of [database/sql] or of the driver, or
    the result of [fmt.Errorf(format, args..., err)] where [format] has one
    [%w] verb, for [err]. *)
Inductive error :=
| DriverError (msg : string)
| Errorf (format : string) (args : list fmt_arg) (wrapped : error).

Definition itoa (n : Z) : string := NilEmpty.string_of_int (Z.to_int n).

Definition fmt_arg_string (a : fmt_arg) : string :=
  match a with
  | AInt n => itoa n
  | AStr s => s
  end.

(** [fmt.Sprintf] for the verbs the program uses: [%d] and [%s] take the
    next argument, [%w] prints the wrapped error [w]. *)
Fixpoint Sprintf (format : string) (args : list fmt_arg) (w : string)
  : string :=
  match format with
  | EmptyString => EmptyString
  | String c rest =>
      if Ascii.eqb c "%"%char then
        match rest with
        | EmptyString => "%!(NOVERB)"
        | String v rest' =>
            if Ascii.eqb v "w"%char then w ++ Sprintf rest' args w
            else match args with
                 | a :: args' => fmt_arg_string a ++ Sprintf rest' args' w
                 | [] => "%!" ++ String v "(MISSING)" ++ Sprintf rest' [] w
                 end
        end
      else String c (Sprintf rest args w)
  end.

(** The [Error()] method. *)
Fixpoint Error (e : error) : string :=
  match e with
  | DriverError msg => msg
  | Errorf format args wrapped => Sprintf format args (Error wrapped)
  end.

Inductive zap_field :=
| zap_Int (key : string) (n : Z)
| zap_String (key val : string)
| zap_Error (e : error).

Inductive LogEntry :=
| log_Printf (format : string) (args : list fmt_arg)
| logger_Info (msg : string) (fields : list zap_field)
| logger_Error (msg : string) (fields : list zap_field)
| logger_Fatal (msg : string) (fields : list zap_field).

(** ** The world the program runs in *)

Inductive Query :=
| SELECT_COUNT (table col : string) (v : Sqlite.Value).

(** The calls into [database/sql]. *)
Inductive Call :=
| call_Open (driverName dsn : string)
| call_Ping
| call_Exec (sql : Sqlite.SQL)
| call_QueryRow (q : Query)
| call_Begin
| call_TxExec (sql : Sqlite.SQL)
| call_Commit
| call_Rollback.

Record World := {
  disk : Sqlite.Store;            (* committed contents of the file *)
  txn : option Sqlite.Store;      (* working copy of the open transaction *)
  clock : Z;
  faults : list (option string);  (* what the next driver calls fail with *)
  calls : list Call;              (* driver calls so far, oldest first *)
  logs : list LogEntry            (* log output so far, oldest first *)
}.

Definition set_disk (s : Sqlite.Store) (w : World) : World :=
  {| disk := s; txn := txn w; clock := clock w; faults := faults w;
     calls := calls w; logs := logs w |}.

Definition set_txn (t : option Sqlite.Store) (w : World) : World :=
  {| disk := disk w; txn := t; clock := clock w; faults := faults w;
     calls := calls w; logs := logs w |}.

Definition add_log (l : LogEntry) (w : World) : World :=
  {| disk := disk w; txn := txn w; clock := clock w; faults := faults w;
     calls := calls w; logs := logs w ++ [l] |}.

(** One call into [database/sql]: it is recorded, time passes, and the next
    entry of the tape tells whether the call fails. *)
Definition enter (c : Call) (w : World) : World :=
  {| disk := disk w; txn := txn w; clock := clock w + 1;
     faults := List.tl (faults w); calls := calls w ++ [c]; logs := logs w |}.

Definition fault (w : World) : option string :=
  match faults w with
  | Some msg :: _ => Some msg
  | _ => None
  end.

(** A Go computation either returns or panics; it threads the world. *)
Inductive outcome (A : Type) :=
| Returns (a : A)
| Panics (msg : string).
Arguments Returns {A} a.
Arguments Panics {A} msg.

Definition Go (A : Type) : Type := World -> outcome A * World.

Definition ret {A} (a : A) : Go A := fun w => (Returns a, w).

Definition bind {A B} (m : Go A) (k : A -> Go B) : Go B :=
  fun w =>
    match m w with
    | (Returns a, w') => k a w'
    | (Panics msg, w') => (Panics msg, w')
    end.

Definition panic {A} (msg : string) : Go A := fun w => (Panics msg, w).

Notation "'let*' x ':=' m 'in' k" := (bind m (fun x => k))
  (at level 10, x pattern, m at level 100, k at level 200).

Definition log (l : LogEntry) : Go unit :=
  fun w => (Returns tt, add_log l w).

Definition driver (c : Call) : Go (option string) :=
  fun w => (Returns (fault w), enter c w).

(** ** [database/sql] *)

Inductive sqlDB := SqlDB (driverName dsn : string).
Inductive sqlTx := SqlTx.

Import Sqlite.

Definition nil_dereference : string :=
  "runtime error: invalid memory address or nil pointer dereference".

Definition ErrTxDone : string :=
  "sql: transaction has already been committed or rolled back".

Definition deref {A} (p : option A) : Go A :=
  match p with
  | Some a => ret a
  | None => panic nil_dereference
  end.

Definition sql_Open (driverName dsn : string) : Go (result sqlDB) :=
  let* f := driver (call_Open driverName dsn) in
  match f with
  | Some msg => ret (Failed msg)
  | None => ret (Done (SqlDB driverName dsn))
  end.

Definition DB_Ping (db : option sqlDB) : Go (option string) :=
  let* _ := deref db in
  driver call_Ping.

(** [db.Exec] outside a transaction: every statement commits on its own. *)
Definition DB_Exec (db : option sqlDB) (sql : SQL) : Go (option string) :=
  let* _ := deref db in
  let* f := driver (call_Exec sql) in
  match f with
  | Some msg => ret (Some msg)
  | None => fun w =>
      let (s, e) := exec (clock w) sql (disk w) in (Returns e, set_disk s w)
  end.

Definition query (q : Query) (s : Store) : result Z :=
  match q with
  | SELECT_COUNT table col v => select_count table col v s
  end.

(** [db.QueryRow(q).Scan(&n)]. *)
Definition DB_QueryRow_Scan (db : option sqlDB) (q : Query) : Go (result Z) :=
  let* _ := deref db in
  let* f := driver (call_QueryRow q) in
  match f with
  | Some msg => ret (Failed msg)
  | None => fun w => (Returns (query q (disk w)), w)
  end.

Definition DB_Begin (db : option sqlDB) : Go (result sqlTx) :=
  let* _ := deref db in
  let* f := driver call_Begin in
  match f with
  | Some msg => ret (Failed msg)
  | None => fun w => (Returns (Done SqlTx), set_txn (Some (disk w)) w)
  end.

Definition Tx_Exec (tx : sqlTx) (sql : SQL) : Go (option string) :=
  let* f := driver (call_TxExec sql) in
  match f with
  | Some msg => ret (Some msg)
  | None => fun w =>
      match txn w with
      | None => (Returns (Some ErrTxDone), w)
      | Some t =>
          let (t', e) := exec (clock w) sql t in
          (Returns e, set_txn (Some t') w)
      end
  end.

(** A commit that fails leaves the file as it was: the driver rolls the
    transaction back, and [database/sql] closes it in either case. *)
Definition Tx_Commit (tx : sqlTx) : Go (option string) :=
  let* f := driver call_Commit in
  match f with
  | Some msg => fun w => (Returns (Some msg), set_txn None w)
  | None => fun w =>
      match txn w with
      | None => (Returns (Some ErrTxDone), w)
      | Some t => (Returns None, set_txn None (set_disk t w))
      end
  end.

Definition Tx_Rollback (tx : sqlTx) : Go (option string) :=
  let* f := driver call_Rollback in
  fun w =>
    match txn w with
    | None => (Returns (Some ErrTxDone), w)
    | Some _ => (Returns f, set_txn None w)
    end.

(** ** [database/db.go] *)

Inductive Logger := ZapLogger.

(** DatabaseManager handles all database operations. *)
Record DatabaseManager := {
  DB : option sqlDB;
  DBPath : string;
  logger : Logger
}.

(** Migration represents a database migration. *)
Record Migration := {
  Version : Z;
  Name : string;
  SQL : Sqlite.SQL
}.

Definition set_DB (db : option sqlDB) (dm : DatabaseManager)
  : DatabaseManager :=
  {| DB := db; DBPath := DBPath dm; logger := logger dm |}.

Definition NewDatabaseManager (dbPath : string) (logger : Logger)
  : DatabaseManager :=
  {| DB := None; DBPath := dbPath; logger := logger |}.

(** [Connect] has a pointer receiver: the manager it returns is the
    receiver after the call. *)
Definition Connect (dm : DatabaseManager)
  : Go (option error * DatabaseManager) :=
  let* r := sql_Open "sqlite3" (DBPath dm ++ "?_foreign_keys=on") in
  match r with
  | Failed msg =>
      let err := DriverError msg in
      let* _ := log (logger_Error "failed to open database:" [zap_Error err]) in
      ret (Some err, dm)
  | Done db =>
      let* e := DB_Ping (Some db) in
      match e with
      | Some msg =>
          let err := DriverError msg in
          let* _ := log (logger_Error "failed to ping database."
                           [zap_Error err]) in
          ret (Some err, dm)
      | None =>
          let dm' := set_DB (Some db) dm in
          let* _ := log (logger_Info "Connected to database."
                           [zap_String "Connected to database." (DBPath dm')]) in
          ret (None, dm')
      end
  end.

Definition migrations_columns : list Column :=
  [ {| col_name := "id"; col_type := INTEGER;
       col_primary_key_autoincrement := true; col_not_null := false;
       col_unique := false; col_default := None |};
    {| col_name := "version"; col_type := INTEGER;
       col_primary_key_autoincrement := false; col_not_null := true;
       col_unique := true; col_default := None |};
    {| col_name := "name"; col_type := TEXT;
       col_primary_key_autoincrement := false; col_not_null := true;
       col_unique := false; col_default := None |};
    {| col_name := "executed_at"; col_type := DATETIME;
       col_primary_key_autoincrement := false; col_not_null := false;
       col_unique := false; col_default := Some CURRENT_TIMESTAMP |} ].

Definition create_migrations_query : Sqlite.SQL :=
  [ CREATE_TABLE true "migrations" migrations_columns ].

(** createMigrationsTable creates the migrations tracking table. *)
Definition createMigrationsTable (dm : DatabaseManager) : Go (option error) :=
  let query := create_migrations_query in
  let* e := DB_Exec (DB dm) query in
  match e with
  | Some msg =>
      ret (Some (Errorf "failed to create migrations table: %w" []
                   (DriverError msg)))
  | None => ret None
  end.

Definition users_columns : list Column :=
  [ {| col_name := "id"; col_type := INTEGER;
       col_primary_key_autoincrement := true; col_not_null := false;
       col_unique := false; col_default := None |};
    {| col_name := "username"; col_type := TEXT;
       col_primary_key_autoincrement := false; col_not_null := true;
       col_unique := true; col_default := None |};
    {| col_name := "email"; col_type := TEXT;
       col_primary_key_autoincrement := false; col_not_null := true;
       col_unique := true; col_default := None |};
    {| col_name := "created_at"; col_type := DATETIME;
       col_primary_key_autoincrement := false; col_not_null := false;
       col_unique := false; col_default := Some CURRENT_TIMESTAMP |};
    {| col_name := "updated_at"; col_type := DATETIME;
       col_primary_key_autoincrement := false; col_not_null := false;
       col_unique := false; col_default := Some CURRENT_TIMESTAMP |} ].

(** GetMigrations returns all available migrations. *)
Definition GetMigrations : list Migration :=
  [ {| Version := 1;
       Name := "create_users_table";
       SQL := [ CREATE_TABLE false "users" users_columns;
                CREATE_INDEX "idx_users_username" "users" "username";
                CREATE_INDEX "idx_users_email" "users" "email" ] |} ].

Definition count_query (version : Z) : Query :=
  SELECT_COUNT "migrations" "version" (VInt version).

Definition record_statement (version : Z) (name : string) : Sqlite.SQL :=
  [ INSERT false "migrations" ["version"; "name"] [VInt version; VText name] ].

(** The body of the [for] loop of [RunMigrations]: [None] goes on to the
    next migration ([continue], or the end of the body), [Some err] is
    [return err]. *)
Definition migrate (dm : DatabaseManager) (migration : Migration)
  : Go (option error) :=
  let* r := DB_QueryRow_Scan (DB dm) (count_query (Version migration)) in
  match r with
  | Failed msg =>
      ret (Some (Errorf "failed to check migration status: %w" []
                   (DriverError msg)))
  | Done count =>
      if count >? 0 then
        let* _ := log (logger_Info "Migration already executed, skipping"
                         [zap_Int "migration version" (Version migration);
                          zap_String "migration name" (Name migration)]) in
        ret None
      else
        let* _ := log (log_Printf "Executing migration %d: %s"
                         [AInt (Version migration);
                          AStr (Name migration)]) in
        let* r := DB_Begin (DB dm) in
        match r with
        | Failed msg =>
            ret (Some (Errorf "failed to begin transaction: %w" []
                         (DriverError msg)))
        | Done tx =>
            let* e := Tx_Exec tx (SQL migration) in
            match e with
            | Some msg =>
                let* _ := Tx_Rollback tx in
                ret (Some (Errorf "failed to execute migration %d: %w"
                             [AInt (Version migration)] (DriverError msg)))
            | None =>
                let* e := Tx_Exec tx (record_statement (Version migration)
                                        (Name migration)) in
                match e with
                | Some msg =>
                    let* _ := Tx_Rollback tx in
                    ret (Some (Errorf "failed to record migration %d: %w"
                                 [AInt (Version migration)]
                                 (DriverError msg)))
                | None =>
                    let* e := Tx_Commit tx in
                    match e with
                    | Some msg =>
                        ret (Some (Errorf "failed to commit migration %d: %w"
                                     [AInt (Version migration)]
                                     (DriverError msg)))
                    | None =>
                        let* _ := log (logger_Info
                                   "Migration %d (%s) executed successfully"
                                   [zap_Int "migration version"
                                      (Version migration);
                                    zap_String "migration name"
                                      (Name migration)]) in
                        ret None
                    end
                end
            end
        end
  end.

(** [for _, migration := range migrations { ... }; return nil]. *)
Fixpoint range_migrations (dm : DatabaseManager) (migrations : list Migration)
  : Go (option error) :=
  match migrations with
  | [] => ret None
  | migration :: rest =>
      let* r := migrate dm migration in
      match r with
      | Some err => ret (Some err)
      | None => range_migrations dm rest
      end
  end.

(** RunMigrations executes all pending migrations. *)
Definition RunMigrations (dm : DatabaseManager) : Go (option error) :=
  let migrations := GetMigrations in
  range_migrations dm migrations.

(** InitializeDatabase creates the database file and runs initial setup. *)
Definition InitializeDatabase (dm : DatabaseManager)
  : Go (option error * DatabaseManager) :=
  let* (err, dm) := Connect dm in
  match err with
  | Some err => ret (Some err, dm)
  | None =>
      let* err := createMigrationsTable dm in
      match err with
      | Some err => ret (Some err, dm)
      | None =>
          let* err := RunMigrations dm in
          match err with
          | Some err => ret (Some err, dm)
          | None =>
              let* _ := log (logger_Info "Database initialized successfully"
                               []) in
              ret (None, dm)
          end
      end
  end.

(** ** Observations on stores, logs and call records *)

(** The rows of table [name]; none when there is no such table. *)
Definition rows_of (name : string) (s : Store) : list Row :=
  match find_table name s with
  | Some t => tbl_rows t
  | None => []
  end.

(** The columns of table [name]. *)
Definition cols_of (name : string) (s : Store) : option (list Column) :=
  match find_table name s with
  | Some t => Some (tbl_cols t)
  | None => None
  end.

(** The rows of the ledger. *)
Definition ledger_rows (s : Store) : list Row := rows_of "migrations" s.

(** Version [v] has a ledger row. *)
Definition ledger_has (v : Z) (s : Store) : Prop :=
  exists r, r ∈ ledger_rows s /\ field r "version" = Some (VInt v).

(** The answer of the point query by version, as the loop reads it. *)
Definition hasApplied (v : Z) (s : Store) : result bool :=
  match query (count_query v) s with
  | Done count => Done (count >? 0)
  | Failed msg => Failed msg
  end.

(** The version announced by a log line [Executing migration %d: %s]. *)
Definition executing (l : LogEntry) : option Z :=
  match l with
  | log_Printf format [AInt v; AStr _] =>
      if String.eqb format "Executing migration %d: %s" then Some v else None
  | _ => None
  end.

(** The versions whose execution was started, oldest first. *)
Definition executed (ls : list LogEntry) : list Z := omap executing ls.

Definition is_QueryRow (c : Call) : Prop :=
  match c with
  | call_QueryRow _ => True
  | _ => False
  end.

(** The integers an error was formatted with, its own and those of the
    errors it wraps. *)
Fixpoint error_ints (e : error) : list Z :=
  match e with
  | DriverError _ => []
  | Errorf _ args wrapped =>
      omap (fun a => match a with AInt n => Some n | AStr _ => None end) args
      ++ error_ints wrapped
  end.

(** ** [cmd/t-backend/main.go] *)

Record UserModel := {
  UserModel_DB : option sqlDB;
  UserModel_Logger : Logger
}.

Record application := {
  application_logger : option Logger;
  user : UserModel
}.

Record config := {
  port : string;
  dbPath : string;
  logLevel : string
}.

Definition newLogger (logLevel : string) : Logger := ZapLogger.

(** [getenv] is [os.Getenv]: the empty string for a variable not set. *)
Definition getConfig (getenv : string -> string) : config :=
  let logLevel := getenv "LOG_LEVEL" in
  let logLevel := if String.eqb logLevel "" then "info" else logLevel in
  let port := getenv "PORT" in
  let port := if String.eqb port "" then "8080" else port in
  {| port := port; dbPath := "trader_backend.db"; logLevel := logLevel |}.

(** [main] up to the end of the database initialisation: the values of
    [app] and [dbManager] there, and the error [logger.Fatal] ends the
    process with, if any. *)
Definition main (getenv : string -> string)
  : Go (application * DatabaseManager * option error) :=
  let cfg := getConfig getenv in
  let logger := newLogger (logLevel cfg) in
  let dbManager := NewDatabaseManager (dbPath cfg) logger in
  let app := {| application_logger := None;
                user := {| UserModel_DB := DB dbManager;
                           UserModel_Logger := logger |} |} in
  let* (err, dbManager) := InitializeDatabase dbManager in
  match err with
  | Some err =>
      let* _ := log (logger_Fatal "Failed to initialize database:"
                       [zap_Error err]) in
      ret (app, dbManager, Some err)
  | None => ret (app, dbManager, None)
  end.

(** The world [n] driver calls [cs] and log records [ls] after [w], with
    the file holding [s] and the open transaction [t]. *)
Definition after (w : World) (n : nat) (cs : list Call) (ls : list LogEntry)
    (s : Store) (t : option Store) : World :=
  {| disk := s; txn := t; clock := clock w + Z.of_nat n;
     faults := drop n (faults w); calls := calls w ++ cs;
     logs := logs w ++ ls |}.

Definition check_failed (msg : string) : error :=
  Errorf "failed to check migration status: %w" [] (DriverError msg).
Definition begin_failed (msg : string) : error :=
  Errorf "failed to begin transaction: %w" [] (DriverError msg).
Definition execute_failed (version : Z) (msg : string) : error :=
  Errorf "failed to execute migration %d: %w" [AInt version]
    (DriverError msg).
Definition record_failed (version : Z) (msg : string) : error :=
  Errorf "failed to record migration %d: %w" [AInt version]
    (DriverError msg).
Definition commit_failed (version : Z) (msg : string) : error :=
  Errorf "failed to commit migration %d: %w" [AInt version]
    (DriverError msg).

Definition skipping (m : Migration) : LogEntry :=
  logger_Info "Migration already executed, skipping"
    [zap_Int "migration version" (Version m);
     zap_String "migration name" (Name m)].
Definition announcing (m : Migration) : LogEntry :=
  log_Printf "Executing migration %d: %s" [AInt (Version m); AStr (Name m)].
Definition succeeded (m : Migration) : LogEntry :=
  logger_Info "Migration %d (%s) executed successfully"
    [zap_Int "migration version" (Version m);
     zap_String "migration name" (Name m)].

(** The ways one turn of the loop of [RunMigrations] can go, with the world
    each leaves behind. *)
Inductive migrate_run (dm : DatabaseManager) (m : Migration) (w : World)
  : outcome (option error) -> World -> Prop :=
| run_nil :
    DB dm = None ->
    migrate_run dm m w (Panics nil_dereference) w
| run_check_failed msg :
    migrate_run dm m w (Returns (Some (check_failed msg)))
      (after w 1 [call_QueryRow (count_query (Version m))] []
         (disk w) (txn w))
| run_skipped :
    hasApplied (Version m) (disk w) = Done true ->
    migrate_run dm m w (Returns None)
      (after w 1 [call_QueryRow (count_query (Version m))] [skipping m]
         (disk w) (txn w))
| run_begin_failed msg :
    hasApplied (Version m) (disk w) = Done false ->
    migrate_run dm m w (Returns (Some (begin_failed msg)))
      (after w 2 [call_QueryRow (count_query (Version m)); call_Begin]
         [announcing m] (disk w) (txn w))
| run_execute_failed msg :
    hasApplied (Version m) (disk w) = Done false ->
    migrate_run dm m w (Returns (Some (execute_failed (Version m) msg)))
      (after w 4 [call_QueryRow (count_query (Version m)); call_Begin;
                  call_TxExec (SQL m); call_Rollback]
         [announcing m] (disk w) None)
| run_record_failed msg :
    hasApplied (Version m) (disk w) = Done false ->
    migrate_run dm m w (Returns (Some (record_failed (Version m) msg)))
      (after w 5 [call_QueryRow (count_query (Version m)); call_Begin;
                  call_TxExec (SQL m);
                  call_TxExec (record_statement (Version m) (Name m));
                  call_Rollback]
         [announcing m] (disk w) None)
| run_commit_failed msg :
    hasApplied (Version m) (disk w) = Done false ->
    migrate_run dm m w (Returns (Some (commit_failed (Version m) msg)))
      (after w 5 [call_QueryRow (count_query (Version m)); call_Begin;
                  call_TxExec (SQL m);
                  call_TxExec (record_statement (Version m) (Name m));
                  call_Commit]
         [announcing m] (disk w) None)
| run_applied t1 t2 :
    hasApplied (Version m) (disk w) = Done false ->
    exec (clock w + 3) (SQL m) (disk w) = (t1, None) ->
    exec (clock w + 4) (record_statement (Version m) (Name m)) t1
      = (t2, None) ->
    migrate_run dm m w (Returns None)
      (after w 5 [call_QueryRow (count_query (Version m)); call_Begin;
                  call_TxExec (SQL m);
                  call_TxExec (record_statement (Version m) (Name m));
                  call_Commit]
         [announcing m; succeeded m] t2 None).

(** ** The failures of one turn *)

(** What the driver call that comes [n] calls after [w] fails with, by the
    tape. *)
Definition nth_fault (n : nat) (w : World) : option string :=
  match Nat.iter n (@List.tl _) (faults w) with
  | Some msg :: _ => Some msg
  | _ => None
  end.

(** The ledger query of the turn of [m] fails with [msg]: the driver fails
    it, or the store cannot answer it. *)
Definition query_fails (m : Migration) (w : World) (msg : string) : Prop :=
  nth_fault 0 w = Some msg \/
  (nth_fault 0 w = None /\
   query (count_query (Version m)) (disk w) = Failed msg).

(** The ledger query goes through and finds no row for [m]. *)
Definition pending (m : Migration) (w : World) : Prop :=
  nth_fault 0 w = None /\ hasApplied (Version m) (disk w) = Done false.

(** [db.Begin] fails with [msg]. *)
Definition begin_fails (m : Migration) (w : World) (msg : string) : Prop :=
  pending m w /\ nth_fault 1 w = Some msg.

(** The body of [m] fails with [msg]: the driver fails the call, or one of
    the statements fails in the store. *)
Definition body_fails (m : Migration) (w : World) (msg : string) : Prop :=
  pending m w /\ nth_fault 1 w = None /\
  (nth_fault 2 w = Some msg \/
   (nth_fault 2 w = None /\
    (exec (clock w + 3) (SQL m) (disk w)).2 = Some msg)).

(** The body of [m] goes through and leaves [t1] in the transaction; the
    insert of the ledger row fails with [msg]. *)
Definition insert_fails (m : Migration) (w : World) (msg : string) : Prop :=
  pending m w /\ nth_fault 1 w = None /\ nth_fault 2 w = None /\
  exists t1,
    exec (clock w + 3) (SQL m) (disk w) = (t1, None) /\
    (nth_fault 3 w = Some msg \/
     (nth_fault 3 w = None /\
      (exec (clock w + 4) (record_statement (Version m) (Name m)) t1).2
      = Some msg)).

(** Body and ledger insert go through; the commit fails with [msg]. *)
Definition commit_fails (m : Migration) (w : World) (msg : string) : Prop :=
  pending m w /\ nth_fault 1 w = None /\ nth_fault 2 w = None /\
  nth_fault 3 w = None /\
  exists t1 t2,
    exec (clock w + 3) (SQL m) (disk w) = (t1, None) /\
    exec (clock w + 4) (record_statement (Version m) (Name m)) t1
    = (t2, None) /\
    nth_fault 4 w = Some msg.

(** The step of the turn of [m] that fails in [w], with the error the code
    makes of it and the driver calls of the turn up to its return. *)
Inductive turn_fails (m : Migration) (w : World)
  : error -> list Call -> Prop :=
| fails_query msg :
    query_fails m w msg ->
    turn_fails m w (check_failed msg)
      [call_QueryRow (count_query (Version m))]
| fails_begin msg :
    begin_fails m w msg ->
    turn_fails m w (begin_failed msg)
      [call_QueryRow (count_query (Version m)); call_Begin]
| fails_body msg :
    body_fails m w msg ->
    turn_fails m w (execute_failed (Version m) msg)
      [call_QueryRow (count_query (Version m)); call_Begin;
       call_TxExec (SQL m); call_Rollback]
| fails_insert msg :
    insert_fails m w msg ->
    turn_fails m w (record_failed (Version m) msg)
      [call_QueryRow (count_query (Version m)); call_Begin;
       call_TxExec (SQL m);
       call_TxExec (record_statement (Version m) (Name m)); call_Rollback]
| fails_commit msg :
    commit_fails m w msg ->
    turn_fails m w (commit_failed (Version m) msg)
      [call_QueryRow (count_query (Version m)); call_Begin;
       call_TxExec (SQL m);
       call_TxExec (record_statement (Version m) (Name m)); call_Commit].

Definition dsn (dm : DatabaseManager) : string :=
  DBPath dm ++ "?_foreign_keys=on".

Definition create_failed (msg : string) : error :=
  Errorf "failed to create migrations table: %w" [] (DriverError msg).

(** The versions in the ledger, oldest row first. *)
Definition ledger_versions (s : Store) : list Value :=
  omap (fun r => field r "version") (ledger_rows s).

(** ** Worlds and catalogs of the scenarios *)

(** A file with nothing in it, and the driver failing as [tape] says. *)
Definition fresh (tape : list (option string)) : World :=
  {| disk := Sqlite.empty; txn := None; clock := 0; faults := tape;
     calls := []; logs := [] |}.

Definition manager : DatabaseManager :=
  NewDatabaseManager "trader_backend.db" ZapLogger.

Definition connected : DatabaseManager :=
  set_DB (Some (SqlDB "sqlite3" "trader_backend.db?_foreign_keys=on")) manager.

(** The world after [createMigrationsTable] on a fresh file. *)
Definition with_ledger : World :=
  (createMigrationsTable connected (fresh [])).2.

(** The world after a start-up on a fresh file. *)
Definition started : World :=
  (InitializeDatabase manager (fresh [])).2.

(** A fresh file on which the fourth driver call, the first ledger query,
    finds the file locked. *)
Definition locked : World :=
  fresh [None; None; None; Some "database is locked"].

Definition id_column : Column :=
  {| col_name := "id"; col_type := INTEGER;
     col_primary_key_autoincrement := true; col_not_null := false;
     col_unique := false; col_default := None |}.

Definition create_users : Migration :=
  {| Version := 1; Name := "create_users_table";
     SQL := [ CREATE_TABLE false "users" users_columns;
              CREATE_INDEX "idx_users_username" "users" "username";
              CREATE_INDEX "idx_users_email" "users" "email" ] |}.

(** A body of two statements, the second of which fails once [users]
    exists. *)
Definition create_orders_twice : Migration :=
  {| Version := 2; Name := "create_orders_table";
     SQL := [ CREATE_TABLE false "orders" [id_column];
              CREATE_TABLE false "users" [id_column] ] |}.

Definition create_orders : Migration :=
  {| Version := 2; Name := "create_orders_table";
     SQL := [ CREATE_TABLE false "orders" [id_column] ] |}.

Definition create_trades : Migration :=
  {| Version := 3; Name := "create_trades_table";
     SQL := [ CREATE_TABLE false "trades" [id_column] ] |}.

Definition catalog_123 : list Migration :=
  [create_users; create_orders_twice; create_trades].

Definition catalog_21 : list Migration :=
  [create_orders; create_users].


(** A body that writes the ledger row of its own version, so that the
    insert the loop makes after it violates the uniqueness of [version]. *)
Definition self_recording : Migration :=
  {| Version := 2; Name := "create_orders_table";
     SQL := [ CREATE_TABLE false "orders" [id_column];
              INSERT false "migrations" ["version"; "name"]
                [VInt 2; VText "create_orders_table"] ] |}.

(** The world after [createMigrationsTable] on a fresh file, with the driver
    failing the call that comes [n] calls later with [msg]. *)
Definition ledger_failing (n : nat) (msg : string) : World :=
  (createMigrationsTable connected
     (fresh (replicate (S n) None ++ [Some msg]))).2.

(** [n] calls of [Connect], one after the other, on the same manager, with
    the error of each. *)
Fixpoint Connect_attempts (n : nat) (dm : DatabaseManager)
  : Go (list (option error) * DatabaseManager) :=
  match n with
  | O => ret ([], dm)
  | S n =>
      let* (err, dm) := Connect dm in
      let* (errs, dm) := Connect_attempts n dm in
      ret (err :: errs, dm)
  end.

(** ** [database/db.go], the other operations *)

Definition userQueries : list Sqlite.SQL :=
  [ [ INSERT true "users" ["username"; "email"]
        [VText "john_doe"; VText "john@example.com"] ];
    [ INSERT true "users" ["username"; "email"]
        [VText "jane_smith"; VText "jane@example.com"] ] ].

Definition sample_failed (msg : string) : error :=
  Errorf "failed to insert sample data: %w" [] (DriverError msg).

(** [for _, query := range allQueries { ... }] of [AddSampleData]. *)
Fixpoint range_queries (dm : DatabaseManager) (queries : list Sqlite.SQL)
  : Go (option error) :=
  match queries with
  | [] => ret None
  | query :: rest =>
      let* e := DB_Exec (DB dm) query in
      match e with
      | Some msg =>
          ret (Some (Errorf "failed to insert sample data: %w" []
                       (DriverError msg)))
      | None => range_queries dm rest
      end
  end.

(** AddSampleData inserts some sample data for testing.  [log.Println] of
    one string writes the line [log.Printf] writes for it. *)
Definition AddSampleData (dm : DatabaseManager) : Go (option error) :=
  let* _ := log (log_Printf "Adding sample data..." []) in
  let allQueries := userQueries in
  let* err := range_queries dm allQueries in
  match err with
  | Some err => ret (Some err)
  | None =>
      let* _ := log (logger_Info "Sample data added successfully" []) in
      ret None
  end.

(** ExecuteStatement executes a statement (INSERT, UPDATE, DELETE); the
    [sql.Result] is not modelled. *)
Definition ExecuteStatement (dm : DatabaseManager) (query : Sqlite.SQL)
  : Go (option string) :=
  DB_Exec (DB dm) query.

(** BeginTransaction starts a new transaction. *)
Definition BeginTransaction (dm : DatabaseManager) : Go (result sqlTx) :=
  DB_Begin (DB dm).

(** ** States of the file *)


(** Some row of [users] holds [v] in column [c]. *)
Definition users_has (c : string) (v : Value) (s : Store) : Prop :=
  exists r, In r (rows_of "users" s) /\ field r c = Some v.

(** The file with the ledger table and nothing else. *)
Definition ledger_only : Store :=
  {| tables := [{| tbl_name := "migrations"; tbl_cols := migrations_columns;
                   tbl_rows := []; tbl_seq := 0 |}];
     indexes := [] |}.

(** The file once version 1 was applied at time [t]. *)
Definition migrated (t : Z) : Store :=
  {| tables :=
       [{| tbl_name := "migrations"; tbl_cols := migrations_columns;
           tbl_rows := [[("id", VInt 1); ("version", VInt 1);
                         ("name", VText "create_users_table");
                         ("executed_at", VTime t)]];
           tbl_seq := 1 |};
        {| tbl_name := "users"; tbl_cols := users_columns;
           tbl_rows := []; tbl_seq := 0 |}];
     indexes :=
       [{| idx_name := "idx_users_username"; idx_table := "users";
           idx_col := "username" |};
        {| idx_name := "idx_users_email"; idx_table := "users";
           idx_col := "email" |}] |}.

(** The states a start-up can leave a new file in. *)
Definition startup_state (s : Store) : Prop :=
  s = Sqlite.empty \/ s = ledger_only \/ exists t, s = migrated t.

(** A world in which the file holds [s] and no call fails. *)
Definition fresh_on (s : Store) : World :=
  {| disk := s; txn := None; clock := 0; faults := [];
     calls := []; logs := [] |}.

(** What the sample data may change: rows of [users], at the end, one per
    statement at most. *)
Definition sample_step (n : nat) (s s' : Store) : Prop :=
  indexes s' = indexes s /\ table_names s' = table_names s /\
  (forall name, cols_of name s' = cols_of name s) /\
  (forall name, name <> "users" -> rows_of name s' = rows_of name s) /\
  rows_of "users" s `prefix_of` rows_of "users" s' /\
  (List.length (rows_of "users" s')
   <= n + List.length (rows_of "users" s))%nat.

(** The two statements of the sample data. *)
Definition insert_user (username email : string) : Stmt :=
  INSERT true "users" ["username"; "email"] [VText username; VText email].

Definition insert_john : Stmt := insert_user "john_doe" "john@example.com".
Definition insert_jane : Stmt := insert_user "jane_smith" "jane@example.com".

Definition adding_sample_data : LogEntry :=
  log_Printf "Adding sample data..." [].
Definition sample_data_added : LogEntry :=
  logger_Info "Sample data added successfully" [].



(** * Properties *)

(** ** The relational store *)

Section StoreFacts.

Lemma field_new_row now t cols vals cs c v :
  existsb (fun col => String.eqb (col_name col) c) cs = true ->
  supplied c cols vals = Some v ->
  v <> VNull ->
  field (map (fun col => (col_name col, cell now t cols vals col)) cs) c
  = Some v.
Proof.
  intros Hex Hs Hv. induction cs as [|col cs IH]; [done|].
  unfold field in *. cbn in *.
  destruct (String.eqb (col_name col) c) eqn:E.
  - apply String.eqb_eq in E. cbn. unfold cell. rewrite E, Hs.
    destruct v; congruence.
  - cbn in Hex. by apply IH.
Qed.

Lemma find_table_app name ts t :
  find (fun t0 => String.eqb (tbl_name t0) name) (ts ++ [t])
  = match find (fun t0 => String.eqb (tbl_name t0) name) ts with
    | Some t0 => Some t0
    | None => if String.eqb (tbl_name t) name then Some t else None
    end.
Proof.
  induction ts as [|t0 ts IH]; cbn; [done|].
  by destruct (String.eqb (tbl_name t0) name).
Qed.

Lemma find_replace_table name t t' ts :
  find (fun t0 => String.eqb (tbl_name t0) (tbl_name t')) ts = Some t ->
  find (fun t0 => String.eqb (tbl_name t0) name) (replace_table t' ts)
  = if String.eqb (tbl_name t') name then Some t'
    else find (fun t0 => String.eqb (tbl_name t0) name) ts.
Proof.
  induction ts as [|t0 ts IH]; cbn; [done|].
  destruct (String.eqb (tbl_name t0) (tbl_name t')) eqn:E0.
  - intros _. cbn. apply String.eqb_eq in E0. rewrite E0.
    by destruct (String.eqb (tbl_name t') name).
  - intros Hf. cbn. destruct (String.eqb (tbl_name t0) name) eqn:E1.
    + destruct (String.eqb (tbl_name t') name) eqn:E2; [|done].
      apply String.eqb_eq in E1, E2. apply String.eqb_neq in E0. congruence.
    + by apply IH.
Qed.

Lemma find_table_name name s t :
  find_table name s = Some t -> tbl_name t = name.
Proof.
  unfold find_table. intros H. apply find_some in H as [_ H].
  by apply String.eqb_eq in H.
Qed.

(** What a statement that succeeds does to a table: it leaves the table
    as it is, creates it empty, adds one row at the end, or moves its
    counter only. *)
Lemma exec_stmt_table now st s s' name :
  exec_stmt now st s = Done s' ->
  find_table name s' = find_table name s
  \/ (find_table name s = None /\
      exists cols, find_table name s'
        = Some {| tbl_name := name; tbl_cols := cols;
                  tbl_rows := []; tbl_seq := 0 |})
  \/ (exists t r seq, find_table name s = Some t /\
      find_table name s'
        = Some {| tbl_name := tbl_name t; tbl_cols := tbl_cols t;
                  tbl_rows := tbl_rows t ++ [r]; tbl_seq := seq |} /\
      exists or_ignore cols vals,
        st = INSERT or_ignore name cols vals /\
        r = new_row now t cols vals /\
        find (fun c => negb (has_column t c)) cols = None)
  \/ (exists t seq, find_table name s = Some t /\
      find_table name s'
        = Some {| tbl_name := tbl_name t; tbl_cols := tbl_cols t;
                  tbl_rows := tbl_rows t; tbl_seq := seq |}).
Proof.
  destruct st as [ine tn cols|iname tn col|ign tn cols vals]; cbn.
  - destruct (find_table tn s) eqn:Ht.
    + destruct ine; [|done]. intros [= <-]. by left.
    + destruct (has_index tn s); [done|]. intros [= <-].
      unfold find_table in *. cbn. rewrite find_table_app. cbn.
      destruct (find (fun t0 => String.eqb (tbl_name t0) name) (tables s))
        eqn:Hf; [by left|].
      destruct (String.eqb tn name) eqn:E; [|by left].
      apply String.eqb_eq in E as ->. right. left. eauto.
  - destruct (has_index iname s); [done|].
    destruct (find_table iname s); [done|].
    destruct (find_table tn s); [|done].
    destruct (has_column _ col); [|done]. intros [= <-]. by left.
  - destruct (find_table tn s) as [t|] eqn:Ht; [|done].
    destruct (find _ cols) eqn:Hc; [done|].
    destruct (negb _); [done|].
    destruct (violation _ _ _).
    + destruct ign; [|done]. intros [= <-]. unfold find_table in *. cbn.
      pose proof (find_table_name _ _ _ Ht) as Hn.
      erewrite find_replace_table; [|cbn; by rewrite Hn].
      cbn. rewrite Hn. destruct (String.eqb tn name) eqn:E; [|by left].
      apply String.eqb_eq in E as ->. do 3 right.
      exists t, (row_id t (new_row now t cols vals)).
      split; [done|]. by rewrite Hn.
    + intros [= <-]. unfold find_table in *. cbn.
      pose proof (find_table_name _ _ _ Ht) as Hn.
      erewrite find_replace_table; [|cbn; by rewrite Hn].
      cbn. rewrite Hn. destruct (String.eqb tn name) eqn:E; [|by left].
      apply String.eqb_eq in E as ->. right. right. left.
      exists t, (new_row now t cols vals), (row_id t (new_row now t cols vals)).
      split; [done|]. split; [by rewrite Hn|]. eauto 10.
Qed.

Lemma exec_stmt_rows_prefix now st s s' name :
  exec_stmt now st s = Done s' ->
  rows_of name s `prefix_of` rows_of name s'.
Proof.
  intros H. unfold rows_of.
  destruct (exec_stmt_table _ _ _ _ name H)
    as [->|[[-> [cols ->]]|[(t & r & seq & -> & -> & _)|
        (t & seq & -> & ->)]]]; cbn.
  - done.
  - apply prefix_nil.
  - by apply prefix_app_r.
  - done.
Qed.

Lemma exec_stmt_cols now st s s' name cols :
  exec_stmt now st s = Done s' ->
  cols_of name s = Some cols -> cols_of name s' = Some cols.
Proof.
  intros H. unfold cols_of.
  destruct (exec_stmt_table _ _ _ _ name H)
    as [->|[[-> [cols' ->]]|[(t & r & seq & -> & -> & _)|
        (t & seq & -> & ->)]]]; cbn; done.
Qed.

Lemma exec_rows_prefix now sql s name :
  rows_of name s `prefix_of` rows_of name (exec now sql s).1.
Proof.
  revert s. induction sql as [|st sql IH]; intros s; cbn; [done|].
  destruct (exec_stmt now st s) as [s'|msg] eqn:E; cbn; [|done].
  etrans; [by eapply exec_stmt_rows_prefix|apply IH].
Qed.

Lemma exec_cols now sql s name cols :
  cols_of name s = Some cols -> cols_of name (exec now sql s).1 = Some cols.
Proof.
  revert s. induction sql as [|st sql IH]; intros s; cbn; [done|].
  destruct (exec_stmt now st s) as [s'|msg] eqn:E; cbn; [|done].
  intros H. apply IH. by eapply exec_stmt_cols.
Qed.

End StoreFacts.

(** ** One turn of the loop *)

Lemma world_eq (w w' : World) :
  disk w = disk w' -> txn w = txn w' -> clock w = clock w' ->
  faults w = faults w' -> calls w = calls w' -> logs w = logs w' -> w = w'.
Proof. destruct w, w'; cbn; congruence. Qed.

Lemma tl_drop {A} (l : list A) n : List.tl (drop n l) = drop (S n) l.
Proof.
  revert l. induction n as [|n IH]; intros [|x l]; cbn;
    rewrite ?drop_0, ?drop_nil; auto.
Qed.

Ltac tape_eq :=
  match goal with
  | |- context [faults ?w] =>
      generalize (faults w); intros l;
      repeat (first [ reflexivity | destruct l as [|? l]; cbn ])
  end.

Ltac world_eq :=
  apply world_eq; cbn;
  [ done | done | lia | tape_eq
  | by rewrite <- ?app_assoc, ?app_nil_r
  | by rewrite <- ?app_assoc, ?app_nil_r ].

Lemma migrate_run_eq dm m w o w1 w2 :
  migrate_run dm m w o w1 -> w1 = w2 -> migrate_run dm m w o w2.
Proof. by intros H <-. Qed.

Section Inversion.

Local Arguments query : simpl never.
Local Arguments exec : simpl never.
Local Arguments fault : simpl never.
Local Arguments Z.add : simpl never.

Lemma migrate_inv dm m w o w' :
  migrate dm m w = (o, w') -> migrate_run dm m w o w'.
Proof.
  unfold migrate, DB_QueryRow_Scan, DB_Begin, Tx_Exec, Tx_Commit,
    Tx_Rollback, deref, driver, log, bind, ret, panic.
  destruct (DB dm) as [db|] eqn:Hdb; cbn; [|intros [= <- <-]; by constructor].
  intros H.
  repeat (first [progress cbn in H | case_match]); simplify_eq.
  all: cbn in *; simplify_eq.
  all: eapply migrate_run_eq;
    [ econstructor;
      first
        [ unfold hasApplied;
          match goal with H : query _ _ = _ |- _ => rewrite H end;
          congruence
        | replace (clock w + 3) with (clock w + 1 + 1 + 1) by lia;
          eassumption
        | replace (clock w + 4) with (clock w + 1 + 1 + 1 + 1) by lia;
          eassumption ]
    | world_eq ].
Qed.

End Inversion.

(** ** The ledger *)

Section LedgerFacts.

Lemma select_count_alt table col v s :
  select_count table col v s
  = match cols_of table s with
    | None => Failed ("no such table: " ++ table)
    | Some cols =>
        if existsb (fun c => String.eqb (col_name c) col) cols
        then Done (Z.of_nat (List.length
               (List.filter (fun r => match field r col with
                                      | Some v0 => Value_eqb v0 v
                                      | None => false
                                      end) (rows_of table s))))
        else Failed ("no such column: " ++ col)
    end.
Proof.
  unfold select_count, cols_of, rows_of, has_column.
  by destruct (find_table table s).
Qed.

Lemma filter_length_pos {A} (f : A -> bool) (l : list A) :
  (0 < List.length (List.filter f l))%nat <-> exists x, x ∈ l /\ f x = true.
Proof.
  split.
  - destruct (List.filter f l) as [|x l'] eqn:E; cbn; [lia|]. intros _.
    assert (In x (List.filter f l)) as Hin by (rewrite E; by left).
    apply filter_In in Hin as [Hin Hf]. exists x.
    by rewrite list_elem_of_In.
  - intros (x & Hin & Hf). rewrite list_elem_of_In in Hin.
    assert (In x (List.filter f l)) as Hx by (by apply filter_In).
    destruct (List.filter f l); [done|cbn; lia].
Qed.

Lemma filter_length_prefix {A} (f : A -> bool) (l k : list A) :
  l `prefix_of` k ->
  (List.length (List.filter f l) <= List.length (List.filter f k))%nat.
Proof.
  intros [l' ->]. rewrite List.filter_app, List.length_app. lia.
Qed.

Lemma Value_eqb_eq a b : Value_eqb a b = true <-> a = b.
Proof. unfold Value_eqb. by rewrite bool_decide_eq_true. Qed.

Lemma hasApplied_true v s :
  hasApplied v s = Done true -> ledger_has v s.
Proof.
  unfold hasApplied, query, count_query. rewrite select_count_alt.
  destruct (cols_of _ s); [|done]. destruct (existsb _ _); [|done].
  intros [= H]. apply Z.gtb_lt in H.
  assert (0 < List.length (List.filter (fun r => match field r "version" with
            | Some v0 => Value_eqb v0 (VInt v) | None => false end)
            (rows_of "migrations" s)))%nat as Hlen by lia.
  apply filter_length_pos in Hlen as (r & Hin & Hf).
  exists r. split; [done|].
  destruct (field r "version"); [|done]. by apply Value_eqb_eq in Hf as ->.
Qed.

Lemma hasApplied_false v s :
  hasApplied v s = Done false -> ~ ledger_has v s.
Proof.
  unfold hasApplied, query, count_query. rewrite select_count_alt.
  destruct (cols_of _ s); [|done]. destruct (existsb _ _); [|done].
  intros [= H] (r & Hin & Hf).
  assert (0 < List.length (List.filter (fun r => match field r "version" with
            | Some v0 => Value_eqb v0 (VInt v) | None => false end)
            (rows_of "migrations" s)))%nat as Hlen.
  { apply filter_length_pos. exists r. split; [done|].
    rewrite Hf. by apply Value_eqb_eq. }
  rewrite Z.gtb_ltb in H. apply Z.ltb_ge in H. lia.
Qed.

(** The answer stays [true] while the ledger only grows. *)
Lemma hasApplied_mono v s s' cols :
  cols_of "migrations" s = Some cols ->
  cols_of "migrations" s' = Some cols ->
  ledger_rows s `prefix_of` ledger_rows s' ->
  hasApplied v s = Done true -> hasApplied v s' = Done true.
Proof.
  intros Hc Hc' Hp. unfold hasApplied, query, count_query.
  rewrite !select_count_alt, Hc, Hc'.
  destruct (existsb _ _); [|done].
  intros [= H]. f_equal. apply Z.gtb_lt in H. apply Z.gtb_lt.
  pose proof (filter_length_prefix (fun r => match field r "version" with
            | Some v0 => Value_eqb v0 (VInt v) | None => false end) _ _ Hp).
  unfold ledger_rows in *. lia.
Qed.

Lemma hasApplied_cols v s b :
  hasApplied v s = Done b -> exists cols, cols_of "migrations" s = Some cols.
Proof.
  unfold hasApplied, query, count_query. rewrite select_count_alt.
  destruct (cols_of _ s); [eauto|done].
Qed.

(** A plain [INSERT] that succeeds adds exactly one row, which holds the
    values supplied. *)
Lemma insert_row now table cols vals s s' c v :
  exec now [INSERT false table cols vals] s = (s', None) ->
  supplied c cols vals = Some v -> v <> VNull ->
  exists r cs,
    rows_of table s' = (rows_of table s ++ [r])%list /\
    field r c = Some v /\
    cols_of table s = Some cs /\ cols_of table s' = Some cs.
Proof.
  cbn [exec].
  destruct (exec_stmt now (INSERT false table cols vals) s) as [s1|] eqn:E;
    [|done].
  intros [= ->] Hs Hv. cbn in E. unfold rows_of, cols_of.
  destruct (find_table table s) as [t|] eqn:Ht; [|done].
  destruct (find _ cols) eqn:Hc; [done|].
  destruct (negb _); [done|].
  destruct (violation _ _ _); [done|]. injection E as <-.
  unfold find_table in *. cbn.
  pose proof (find_table_name _ _ _ Ht) as Hn.
  erewrite find_replace_table; [|cbn; by rewrite Hn].
  cbn. rewrite Hn, String.eqb_refl. cbn.
  eexists _, _. split; [done|]. split; [|done].
  apply field_new_row; [|done..].
  assert (In c cols) as Hin.
  { clear -Hs. revert vals Hs. induction cols as [|c0 cols IH];
      intros [|v0 vals]; cbn; try done.
    destruct (String.eqb c0 c) eqn:E; [apply String.eqb_eq in E; auto|].
    intros H. right. by eapply IH. }
  pose proof (find_none _ _ Hc _ Hin) as Hh.
  by apply negb_false_iff in Hh.
Qed.

End LedgerFacts.

(** ** What one turn does to the store *)

Section Turn.

Context (dm : DatabaseManager) (m : Migration).

Lemma exec_fst now sql s s' e :
  exec now sql s = (s', e) -> s' = (exec now sql s).1.
Proof. by intros ->. Qed.

Lemma migrate_run_ledger_prefix w o w' :
  migrate_run dm m w o w' ->
  ledger_rows (disk w) `prefix_of` ledger_rows (disk w').
Proof.
  destruct 1; cbn; try done.
  rewrite (exec_fst _ _ _ _ _ H1), (exec_fst _ _ _ _ _ H0).
  unfold ledger_rows. etrans; apply exec_rows_prefix.
Qed.

Lemma migrate_run_cols w o w' name cols :
  migrate_run dm m w o w' ->
  cols_of name (disk w) = Some cols -> cols_of name (disk w') = Some cols.
Proof.
  destruct 1; cbn; try done.
  rewrite (exec_fst _ _ _ _ _ H1), (exec_fst _ _ _ _ _ H0).
  intros Hc. by do 2 apply exec_cols.
Qed.

(** A failed turn leaves the file as it was. *)
Lemma migrate_run_error_disk w e w' :
  migrate_run dm m w (Returns (Some e)) w' -> disk w' = disk w.
Proof. by inversion 1. Qed.

Lemma migrate_run_panic w msg w' :
  migrate_run dm m w (Panics msg) w' -> w' = w /\ DB dm = None.
Proof. by inversion 1. Qed.

(** After a turn that went through, the point query answers [true]. *)
Lemma migrate_run_applied w w' :
  migrate_run dm m w (Returns None) w' ->
  hasApplied (Version m) (disk w') = Done true.
Proof.
  inversion 1 as [| |Hs| | | | |t1 t2 Hp Hb Hr]; subst; cbn; [done|].
  destruct (insert_row _ _ _ _ _ _ "version" (VInt (Version m)) Hr)
    as (r & cs & Hrows & Hf & Hc1 & Hc2); [done..|].
  destruct (hasApplied_cols _ _ _ Hp) as [cs0 Hc0].
  pose proof Hc0 as Hc0'.
  apply (exec_cols (clock w + 3) (SQL m)) in Hc0'.
  rewrite <- (exec_fst _ _ _ _ _ Hb), Hc1 in Hc0'. injection Hc0' as ->.
  revert Hp. unfold hasApplied, query, count_query.
  rewrite !select_count_alt, Hc0, Hc2, Hrows.
  destruct (existsb _ _); [|done]. intros _. f_equal.
  rewrite List.filter_app, List.length_app. cbn. rewrite Hf. cbn.
  unfold Value_eqb. rewrite bool_decide_eq_true_2 by done. cbn.
  apply Z.gtb_lt. lia.
Qed.

Lemma migrate_run_keeps_applied v w o w' :
  migrate_run dm m w o w' ->
  hasApplied v (disk w) = Done true -> hasApplied v (disk w') = Done true.
Proof.
  intros Hrun Hv. destruct (hasApplied_cols _ _ _ Hv) as [cs Hc].
  eapply hasApplied_mono; [done| |by eapply migrate_run_ledger_prefix|done].
  by eapply migrate_run_cols.
Qed.

(** A turn for a version that has a ledger row only asks the ledger. *)
Lemma migrate_run_skip w o w' :
  ledger_has (Version m) (disk w) ->
  migrate_run dm m w o w' ->
  disk w' = disk w /\ txn w' = txn w /\
  executed (logs w') = executed (logs w) /\
  exists cs, calls w' = (calls w ++ cs)%list /\ Forall is_QueryRow cs.
Proof.
  intros Hl Hrun.
  destruct Hrun;
    try (exfalso; by eapply hasApplied_false);
    cbn; (split; [done|]); (split; [done|]).
  - split; [done|]. exists []. by rewrite app_nil_r.
  - split; [by rewrite app_nil_r|]. eexists. split; [done|].
    by repeat constructor.
  - split; [unfold executed; by rewrite omap_app, app_nil_r|].
    eexists. split; [done|]. by repeat constructor.
Qed.

(** The turn announces at most its own version. *)
Lemma migrate_run_executed w o w' :
  migrate_run dm m w o w' ->
  executed (logs w') = executed (logs w)
  \/ executed (logs w') = (executed (logs w) ++ [Version m])%list.
Proof.
  destruct 1; cbn; unfold executed; rewrite ?omap_app, ?app_nil_r; cbn;
    auto.
Qed.

Lemma migrate_run_calls w o w' :
  migrate_run dm m w o w' -> calls w `prefix_of` calls w'.
Proof. destruct 1; cbn; try done; by apply prefix_app_r. Qed.

Lemma migrate_skip db w :
  DB dm = Some db -> fault w = None ->
  hasApplied (Version m) (disk w) = Done true ->
  migrate dm m w
  = (Returns None,
     add_log (skipping m)
       (enter (call_QueryRow (count_query (Version m))) w)).
Proof.
  intros Hdb Hf. unfold hasApplied, migrate, DB_QueryRow_Scan, deref,
    driver, log, bind, ret.
  rewrite Hdb. cbn -[query]. rewrite Hf.
  destruct (query _ _) as [count|]; [|done]. intros [= ->]. done.
Qed.

End Turn.

(** ** The loop *)

Lemma range_cons dm m rest w :
  range_migrations dm (m :: rest) w
  = match migrate dm m w with
    | (Returns None, w1) => range_migrations dm rest w1
    | (Returns (Some e), w1) => (Returns (Some e), w1)
    | (Panics msg, w1) => (Panics msg, w1)
    end.
Proof.
  cbn [range_migrations]. unfold bind.
  destruct (migrate dm m w) as [[[e|]|msg] w1]; done.
Qed.

Lemma range_app dm pre post w :
  range_migrations dm (pre ++ post) w
  = match range_migrations dm pre w with
    | (Returns None, w1) => range_migrations dm post w1
    | r => r
    end.
Proof.
  revert w. induction pre as [|m pre IH]; intros w; [done|].
  rewrite <- app_comm_cons, !range_cons.
  destruct (migrate dm m w) as [[[e|]|msg] w1]; [done| |done]. apply IH.
Qed.

(** A statement about one turn that carries over to the whole loop. *)
Lemma range_ind (R : World -> World -> Prop) dm :
  (forall w, R w w) ->
  (forall w1 w2 w3, R w1 w2 -> R w2 w3 -> R w1 w3) ->
  (forall m w o w', migrate_run dm m w o w' -> R w w') ->
  forall ms w o w', range_migrations dm ms w = (o, w') -> R w w'.
Proof.
  intros Hrefl Htrans Hstep. induction ms as [|m ms IH]; intros w o w'.
  - intros [= <- <-]. apply Hrefl.
  - rewrite range_cons. destruct (migrate dm m w) as [[[e|]|msg] w1] eqn:E;
      apply migrate_inv in E.
    + intros [= <- <-]. by eapply Hstep.
    + intros H. eapply Htrans; [by eapply Hstep|by eapply IH].
    + intros [= <- <-]. by eapply Hstep.
Qed.

Lemma range_ledger_prefix dm ms w o w' :
  range_migrations dm ms w = (o, w') ->
  ledger_rows (disk w) `prefix_of` ledger_rows (disk w').
Proof.
  apply (range_ind
           (fun w w' => ledger_rows (disk w) `prefix_of` ledger_rows (disk w'))).
  - done.
  - intros. by etrans.
  - intros. by eapply migrate_run_ledger_prefix.
Qed.

Lemma range_calls_prefix dm ms w o w' :
  range_migrations dm ms w = (o, w') -> calls w `prefix_of` calls w'.
Proof.
  apply (range_ind (fun w w' => calls w `prefix_of` calls w')).
  - done.
  - intros. by etrans.
  - intros. by eapply migrate_run_calls.
Qed.

Lemma range_keeps_applied dm ms v w o w' :
  range_migrations dm ms w = (o, w') ->
  hasApplied v (disk w) = Done true -> hasApplied v (disk w') = Done true.
Proof.
  apply (range_ind (fun w w' => hasApplied v (disk w) = Done true ->
                                hasApplied v (disk w') = Done true)).
  - done.
  - auto.
  - intros. by eapply migrate_run_keeps_applied.
Qed.

(** When the loop returns [nil], every version of the catalog is in the
    ledger. *)
Lemma range_success_applied dm ms w w' :
  range_migrations dm ms w = (Returns None, w') ->
  forall m, m ∈ ms -> hasApplied (Version m) (disk w') = Done true.
Proof.
  revert w. induction ms as [|m0 ms IH]; intros w H m Hin.
  - by apply elem_of_nil in Hin.
  - rewrite range_cons in H.
    destruct (migrate dm m0 w) as [[[e|]|msg] w1] eqn:E; [done| |done].
    apply migrate_inv in E. apply elem_of_cons in Hin as [->|Hin].
    + eapply range_keeps_applied; [done|]. by eapply migrate_run_applied.
    + by eapply IH.
Qed.

(** When every version of the catalog has a ledger row, the loop only asks
    the ledger. *)
Lemma range_skip_all dm ms w o w' :
  (forall m, m ∈ ms -> ledger_has (Version m) (disk w)) ->
  range_migrations dm ms w = (o, w') ->
  disk w' = disk w /\ txn w' = txn w /\
  executed (logs w') = executed (logs w) /\
  exists cs, calls w' = (calls w ++ cs)%list /\ Forall is_QueryRow cs.
Proof.
  revert w. induction ms as [|m ms IH]; intros w Hall.
  - intros [= <- <-]. repeat split. exists []. by rewrite app_nil_r.
  - rewrite range_cons.
    destruct (migrate dm m w) as [[[e|]|msg] w1] eqn:E; apply migrate_inv in E;
      (eapply migrate_run_skip in E; [|apply Hall; by left]);
      destruct E as (Hd & Ht & He & cs & Hc & Hq).
    + intros [= <- <-]. eauto 10.
    + intros H. apply IH in H as (Hd' & Ht' & He' & cs' & Hc' & Hq').
      * repeat split; try congruence.
        exists (cs ++ cs')%list. rewrite Hc', Hc, app_assoc. split; [done|].
        by apply Forall_app.
      * intros m' Hin. rewrite Hd. apply Hall. by right.
    + intros [= <- <-]. eauto 10.
Qed.

(** With a connection, no injected fault and every version answered [true]
    by the point query, the loop skips every entry and returns [nil]. *)
Lemma range_skip_all_nil dm db ms w :
  DB dm = Some db -> faults w = [] ->
  (forall m, m ∈ ms -> hasApplied (Version m) (disk w) = Done true) ->
  exists w', range_migrations dm ms w = (Returns None, w') /\
             faults w' = [] /\ disk w' = disk w /\
             logs w' = (logs w ++ map skipping ms)%list.
Proof.
  intros Hdb. revert w. induction ms as [|m ms IH]; intros w Hf Hall.
  - exists w. by rewrite app_nil_r.
  - rewrite range_cons. erewrite migrate_skip; [|done| |apply Hall; by left].
    2: { unfold fault. by rewrite Hf. }
    destruct (IH (add_log (skipping m)
                (enter (call_QueryRow (count_query (Version m))) w)))
      as (w' & -> & Hf' & Hd' & Hl').
    + cbn. by rewrite Hf.
    + intros m' Hin. cbn. apply Hall. by right.
    + exists w'. cbn in *. by rewrite <- app_assoc in Hl'.
Qed.

(** The versions the loop announces are versions of the catalog, in the
    order of the catalog. *)
Lemma range_executed dm ms w o w' :
  range_migrations dm ms w = (o, w') ->
  exists vs, executed (logs w') = (executed (logs w) ++ vs)%list /\
             vs `sublist_of` (Version <$> ms).
Proof.
  revert w. induction ms as [|m ms IH]; intros w.
  - intros [= <- <-]. exists []. by rewrite app_nil_r.
  - rewrite range_cons.
    destruct (migrate dm m w) as [[[e|]|msg] w1] eqn:E; apply migrate_inv in E;
      apply migrate_run_executed in E.
    + intros [= <- <-]. destruct E as [->| ->].
      * exists []. rewrite app_nil_r. split; [done|]. apply sublist_nil_l.
      * exists [Version m]. split; [done|]. cbn. apply sublist_skip.
        apply sublist_nil_l.
    + intros H. apply IH in H as (vs & Hvs & Hsub).
      destruct E as [E|E]; rewrite E in Hvs.
      * exists vs. split; [done|]. cbn. by apply sublist_cons.
      * exists (Version m :: vs). rewrite <- app_assoc in Hvs.
        split; [done|]. cbn. by apply sublist_skip.
    + intros [= <- <-]. destruct E as [->| ->].
      * exists []. rewrite app_nil_r. split; [done|]. apply sublist_nil_l.
      * exists [Version m]. split; [done|]. cbn. apply sublist_skip.
        apply sublist_nil_l.
Qed.

(** ** Connecting and creating the ledger table *)

Lemma Connect_inv dm w r w' :
  Connect dm w = (r, w') ->
  (exists msg,
      fault w = Some msg /\
      r = Returns (Some (DriverError msg), dm) /\
      w' = after w 1 [call_Open "sqlite3" (dsn dm)]
             [logger_Error "failed to open database:"
                [zap_Error (DriverError msg)]] (disk w) (txn w))
  \/ (exists msg,
      fault w = None /\
      fault (enter (call_Open "sqlite3" (dsn dm)) w) = Some msg /\
      r = Returns (Some (DriverError msg), dm) /\
      w' = after w 2 [call_Open "sqlite3" (dsn dm); call_Ping]
             [logger_Error "failed to ping database."
                [zap_Error (DriverError msg)]] (disk w) (txn w))
  \/ (fault w = None /\
      fault (enter (call_Open "sqlite3" (dsn dm)) w) = None /\
      r = Returns (None, set_DB (Some (SqlDB "sqlite3" (dsn dm))) dm) /\
      w' = after w 2 [call_Open "sqlite3" (dsn dm); call_Ping]
             [logger_Info "Connected to database."
                [zap_String "Connected to database." (DBPath dm)]]
             (disk w) (txn w)).
Proof.
  unfold Connect, sql_Open, DB_Ping, deref, driver, log, bind, ret, dsn.
  cbn -[fault]. destruct (fault w) as [msg|] eqn:Hf; cbn -[fault].
  - intros [= <- <-]. left. exists msg. repeat split; try world_eq.
  - destruct (fault (enter _ w)) as [msg|] eqn:Hp; cbn -[fault];
      intros [= <- <-]; right; [left; exists msg|right]; repeat split;
      try world_eq.
Qed.

Lemma createMigrationsTable_inv dm w o w' :
  createMigrationsTable dm w = (o, w') ->
  (DB dm = None /\ o = Panics nil_dereference /\ w' = w)
  \/ (exists msg,
        o = Returns (Some (create_failed msg)) /\
        w' = after w 1 [call_Exec create_migrations_query] []
               (disk w) (txn w))
  \/ (o = Returns None /\ fault w = None /\
      exists s,
        exec (clock w + 1) create_migrations_query (disk w) = (s, None) /\
        w' = after w 1 [call_Exec create_migrations_query] [] s (txn w)).
Proof.
  unfold createMigrationsTable, DB_Exec, deref, driver, bind, ret, panic.
  destruct (DB dm) as [db|]; [|intros [= <- <-]; by left].
  cbn -[fault exec]. destruct (fault w) as [msg|] eqn:Hf; cbn -[fault exec].
  - intros [= <- <-]. right. left. exists msg. split; [done|]. world_eq.
  - destruct (exec _ _ _) as [s [msg|]] eqn:E; cbn -[fault exec];
      intros [= <- <-]; right.
    + left. exists msg. split; [done|].
      assert (s = disk w) as ->; [|world_eq].
      revert E. cbn. destruct (find_table _ _); [done|].
      destruct (has_index _ _); [|done]. by intros [= <-].
    + right. do 2 (split; [done|]). exists s. split; [done|]. world_eq.
Qed.

Lemma iter_tl_drop {A} (l : list A) n : Nat.iter n (@List.tl A) l = drop n l.
Proof.
  induction n as [|n IH]; [by rewrite drop_0|].
  change (Nat.iter (S n) (@List.tl A) l)
    with (List.tl (Nat.iter n (@List.tl A) l)).
  rewrite IH. apply tl_drop.
Qed.

Lemma nth_fault_after w k cs ls s t n :
  nth_fault n (after w k cs ls s t) = nth_fault (n + k) w.
Proof.
  unfold nth_fault. cbn [faults after].
  by rewrite Nat.iter_add, (iter_tl_drop (faults w) k).
Qed.

(** [createMigrationsTable] with a handle: it fails when the driver fails
    the call or the store refuses the statement, and only then. *)
Lemma createMigrationsTable_run dm db w o w' :
  DB dm = Some db ->
  createMigrationsTable dm w = (o, w') ->
  (exists msg,
      (nth_fault 0 w = Some msg \/
       (nth_fault 0 w = None /\
        (exec (clock w + 1) create_migrations_query (disk w)).2 = Some msg)) /\
      o = Returns (Some (create_failed msg)) /\
      w' = after w 1 [call_Exec create_migrations_query] []
             (disk w) (txn w))
  \/ (nth_fault 0 w = None /\ o = Returns None /\
      exists s,
        exec (clock w + 1) create_migrations_query (disk w) = (s, None) /\
        w' = after w 1 [call_Exec create_migrations_query] [] s (txn w)).
Proof.
  intros Hdb.
  unfold createMigrationsTable, DB_Exec, deref, driver, bind, ret, panic.
  rewrite Hdb. cbn -[fault exec Z.add].
  change (fault w) with (nth_fault 0 w).
  destruct (nth_fault 0 w) as [msg|] eqn:Hf; cbn -[fault exec Z.add].
  - intros [= <- <-]. left. exists msg. split; [by left|].
    split; [done|]. world_eq.
  - destruct (exec _ _ _) as [s [msg|]] eqn:E; cbn -[fault exec Z.add];
      intros [= <- <-].
    + change (exec (clock w + 1) create_migrations_query (disk w)
              = (s, Some msg)) in E.
      left. exists msg. split; [by right|]. split; [done|].
      assert (s = disk w) as ->; [|world_eq].
      revert E. cbn. destruct (find_table _ _); [done|].
      destruct (has_index _ _); [|done]. by intros [= <-].
    + change (exec (clock w + 1) create_migrations_query (disk w)
              = (s, None)) in E.
      right. do 2 (split; [done|]). exists s. split; [done|]. world_eq.
Qed.

(** Once the statement went through, the ledger table is there. *)
Lemma create_migrations_found now s s' :
  exec now create_migrations_query s = (s', None) ->
  find_table "migrations" s' <> None.
Proof.
  cbn. destruct (find_table "migrations" s) as [t|] eqn:Ht.
  - intros [= <-]. by rewrite Ht.
  - destruct (has_index _ _); [done|]. intros [= <-].
    unfold find_table in *. cbn. by rewrite find_table_app, Ht.
Qed.

(** What the [CREATE TABLE IF NOT EXISTS] does to the store. *)
Lemma create_migrations_exec now s s' :
  exec now create_migrations_query s = (s', None) ->
  match find_table "migrations" s with
  | Some _ => s' = s
  | None =>
      s' = {| tables := tables s ++
                        [{| tbl_name := "migrations";
                            tbl_cols := migrations_columns;
                            tbl_rows := []; tbl_seq := 0 |}];
              indexes := indexes s |}
  end.
Proof.
  cbn. destruct (find_table _ _); [by intros [= <-]|].
  destruct (has_index _ _); [done|]. by intros [= <-].
Qed.

Lemma createMigrationsTable_ledger_prefix dm w o w' :
  createMigrationsTable dm w = (o, w') ->
  ledger_rows (disk w) `prefix_of` ledger_rows (disk w').
Proof.
  intros H. apply createMigrationsTable_inv in H
    as [(_ & _ & ->)|[(msg & _ & ->)|(_ & _ & s & E & ->)]]; cbn; try done.
  rewrite (exec_fst _ _ _ _ _ E). apply exec_rows_prefix.
Qed.

Lemma RunMigrations_inv dm w o w' :
  RunMigrations dm w = (o, w') ->
  migrate_run dm create_users w o w'.
Proof.
  unfold RunMigrations, GetMigrations. rewrite range_cons.
  destruct (migrate _ _ w) as [[[e|]|msg] w1] eqn:E; apply migrate_inv in E;
    cbn; by intros [= <- <-].
Qed.

(** The outcomes of [InitializeDatabase], by the step that ends it. *)
Lemma InitializeDatabase_inv dm w r w' :
  InitializeDatabase dm w = (r, w') ->
  exists r1 w1,
    Connect dm w = (r1, w1) /\
    ((exists e, r1 = Returns (Some e, dm) /\ r = r1 /\ w' = w1)
     \/ exists dm1 o2 w2,
          r1 = Returns (None, dm1) /\
          createMigrationsTable dm1 w1 = (o2, w2) /\
          ((exists e, o2 = Returns (Some e) /\
                      r = Returns (Some e, dm1) /\ w' = w2)
           \/ o2 = Returns None /\
              exists o3 w3,
                RunMigrations dm1 w2 = (o3, w3) /\
                ((exists e, o3 = Returns (Some e) /\
                            r = Returns (Some e, dm1) /\ w' = w3)
                 \/ o3 = Returns None /\ r = Returns (None, dm1) /\
                    w' = add_log (logger_Info
                                    "Database initialized successfully" [])
                           w3))).
Proof.
  unfold InitializeDatabase. unfold bind at 1.
  destruct (Connect dm w) as [r1 w1] eqn:EC. intros H.
  exists r1, w1. split; [done|].
  destruct (Connect_inv _ _ _ _ EC)
    as [(msg & _ & -> & _)|[(msg & _ & _ & -> & _)|(_ & _ & -> & Hw1)]].
  - injection H as <- <-. left. eauto.
  - injection H as <- <-. left. eauto.
  - right. unfold bind at 1 in H.
    destruct (createMigrationsTable _ w1) as [o2 w2] eqn:EM.
    eexists _, o2, w2. split; [done|]. split; [done|].
    destruct (createMigrationsTable_inv _ _ _ _ EM)
      as [(? & _)|[(msg & -> & _)|(-> & _)]]; [done| |].
    + injection H as <- <-. left. eauto.
    + right. split; [done|]. unfold bind at 1 in H.
      destruct (RunMigrations _ w2) as [o3 w3] eqn:ER.
      exists o3, w3. split; [done|].
      pose proof (RunMigrations_inv _ _ _ _ ER) as Hrun.
      destruct o3 as [[e|]|msg].
      * injection H as <- <-. left. eauto.
      * unfold log, bind, ret in H. injection H as <- <-. by right.
      * by apply migrate_run_panic in Hrun as [_ ?].
Qed.

(** ** The loop stops at the first error *)

Lemma range_stops dm pre m post w w1 e w2 :
  range_migrations dm pre w = (Returns None, w1) ->
  migrate dm m w1 = (Returns (Some e), w2) ->
  range_migrations dm (pre ++ m :: post) w = (Returns (Some e), w2).
Proof. intros Hpre Hm. by rewrite range_app, Hpre, range_cons, Hm. Qed.

Lemma range_error_inv dm ms w e w' :
  range_migrations dm ms w = (Returns (Some e), w') ->
  exists pre m post w1,
    ms = (pre ++ m :: post)%list /\
    range_migrations dm pre w = (Returns None, w1) /\
    migrate dm m w1 = (Returns (Some e), w').
Proof.
  revert w. induction ms as [|m ms IH]; intros w; [done|].
  rewrite range_cons.
  destruct (migrate dm m w) as [[[e0|]|msg] w1] eqn:E; [| |done].
  - intros [= <- <-]. by exists [], m, ms, w.
  - intros H. apply IH in H as (pre & m' & post & w2 & -> & Hpre & Hm).
    exists (m :: pre), m', post, w2. split; [done|]. split; [|done].
    by rewrite range_cons, E.
Qed.


Lemma migrate_nil dm m w :
  DB dm = None -> migrate dm m w = (Panics nil_dereference, w).
Proof.
  intros Hdb. unfold migrate, DB_QueryRow_Scan, deref, bind, panic.
  by rewrite Hdb.
Qed.

(** ** The turn that fails *)

Section FailingTurn.

Local Arguments query : simpl never.
Local Arguments exec : simpl never.
Local Arguments fault : simpl never.
Local Arguments Z.add : simpl never.

Context (dm : DatabaseManager) (db : sqlDB) (m : Migration) (w : World).
Hypothesis Hdb : DB dm = Some db.

Ltac run_migrate :=
  unfold migrate, DB_QueryRow_Scan, DB_Begin, Tx_Exec, Tx_Commit,
    Tx_Rollback, deref, driver, log, bind, ret, panic;
  rewrite Hdb; cbn.

Ltac next_call n H :=
  match goal with
  | |- context [fault ?w'] =>
      change (fault w') with (nth_fault n w); rewrite H; cbn
  end.

Ltac not_applied H :=
  unfold hasApplied in H;
  destruct (query _ _) as [count|]; [|done];
  injection H as ->; cbn.

Lemma migrate_query_fails msg :
  query_fails m w msg ->
  migrate dm m w
  = (Returns (Some (check_failed msg)),
     after w 1 [call_QueryRow (count_query (Version m))] []
       (disk w) (txn w)).
Proof.
  intros [H0|[H0 Hq]]; run_migrate; next_call 0%nat H0.
  - f_equal. world_eq.
  - rewrite Hq. f_equal. world_eq.
Qed.

Lemma migrate_begin_fails msg :
  begin_fails m w msg ->
  migrate dm m w
  = (Returns (Some (begin_failed msg)),
     after w 2 [call_QueryRow (count_query (Version m)); call_Begin]
       [announcing m] (disk w) (txn w)).
Proof.
  intros [[H0 Ha] H1]. run_migrate. next_call 0%nat H0. not_applied Ha.
  next_call 1%nat H1. f_equal. world_eq.
Qed.

Lemma migrate_body_fails msg :
  body_fails m w msg ->
  migrate dm m w
  = (Returns (Some (execute_failed (Version m) msg)),
     after w 4 [call_QueryRow (count_query (Version m)); call_Begin;
                call_TxExec (SQL m); call_Rollback]
       [announcing m] (disk w) None).
Proof.
  intros ([H0 Ha] & H1 & H2). run_migrate. next_call 0%nat H0.
  not_applied Ha. next_call 1%nat H1.
  destruct H2 as [H2|[H2 He]]; next_call 2%nat H2.
  - f_equal. world_eq.
  - replace (clock w + 1 + 1 + 1) with (clock w + 3) by lia.
    destruct (exec _ _ _) as [t1 e]. cbn in He. subst e. cbn.
    f_equal. world_eq.
Qed.

Lemma migrate_insert_fails msg :
  insert_fails m w msg ->
  migrate dm m w
  = (Returns (Some (record_failed (Version m) msg)),
     after w 5 [call_QueryRow (count_query (Version m)); call_Begin;
                call_TxExec (SQL m);
                call_TxExec (record_statement (Version m) (Name m));
                call_Rollback]
       [announcing m] (disk w) None).
Proof.
  intros ([H0 Ha] & H1 & H2 & t1 & E1 & H3). run_migrate.
  next_call 0%nat H0. not_applied Ha. next_call 1%nat H1.
  next_call 2%nat H2.
  replace (clock w + 1 + 1 + 1) with (clock w + 3) by lia. rewrite E1. cbn.
  destruct H3 as [H3|[H3 He]]; next_call 3%nat H3.
  - f_equal. world_eq.
  - replace (clock w + 1 + 1 + 1 + 1) with (clock w + 4) by lia.
    destruct (exec (clock w + 4) _ t1) as [t2 e]. cbn in He. subst e. cbn.
    f_equal. world_eq.
Qed.

Lemma migrate_commit_fails msg :
  commit_fails m w msg ->
  migrate dm m w
  = (Returns (Some (commit_failed (Version m) msg)),
     after w 5 [call_QueryRow (count_query (Version m)); call_Begin;
                call_TxExec (SQL m);
                call_TxExec (record_statement (Version m) (Name m));
                call_Commit]
       [announcing m] (disk w) None).
Proof.
  intros ([H0 Ha] & H1 & H2 & H3 & t1 & t2 & E1 & E2 & H4). run_migrate.
  next_call 0%nat H0. not_applied Ha. next_call 1%nat H1.
  next_call 2%nat H2.
  replace (clock w + 1 + 1 + 1) with (clock w + 3) by lia. rewrite E1. cbn.
  next_call 3%nat H3.
  replace (clock w + 1 + 1 + 1 + 1) with (clock w + 4) by lia.
  rewrite E2. cbn. next_call 4%nat H4. f_equal. world_eq.
Qed.

(** Every error of a turn is the error of a step that failed. *)
Lemma migrate_error_inv e w' :
  migrate dm m w = (Returns (Some e), w') -> exists cs, turn_fails m w e cs.
Proof.
  run_migrate. intros H.
  repeat (first [progress cbn in H | case_match]); simplify_eq.
  all: repeat match goal with
       | H : context [fault ?w'] |- _ =>
           first [ change (fault w') with (nth_fault 0 w) in H
                 | change (fault w') with (nth_fault 1 w) in H
                 | change (fault w') with (nth_fault 2 w) in H
                 | change (fault w') with (nth_fault 3 w) in H
                 | change (fault w') with (nth_fault 4 w) in H ]
       end.
  all: cbn in *; simplify_eq.
  all: repeat match goal with
       | H : context [clock w + 1 + 1 + 1 + 1] |- _ =>
           replace (clock w + 1 + 1 + 1 + 1) with (clock w + 4) in H by lia
       | H : context [clock w + 1 + 1 + 1] |- _ =>
           replace (clock w + 1 + 1 + 1) with (clock w + 3) in H by lia
       end.
  all: try match goal with
       | H : query _ _ = Done ?c, H' : (?c >? 0) = false |- _ =>
           assert (pending m w)
             by (split; [done|]; unfold hasApplied; by rewrite H, H')
       end.
  all: repeat match goal with
       | H : exec ?a ?b ?c = (?t, ?e) |- _ =>
           lazymatch goal with
           | _ : (exec a b c).2 = e |- _ => fail
           | _ => assert ((exec a b c).2 = e) by (by rewrite H)
           end
       end.
  all: eexists; econstructor;
    unfold query_fails, begin_fails, body_fails, insert_fails, commit_fails;
    eauto 12.
Qed.

(** A turn in which a step fails returns the error of that step, having
    made the calls up to it, and the rollback after a failed body or
    insert; the file is as it was. *)
Lemma migrate_fails e cs :
  turn_fails m w e cs ->
  exists w',
    migrate dm m w = (Returns (Some e), w') /\
    calls w' = (calls w ++ cs)%list /\ disk w' = disk w /\
    (txn w = None -> txn w' = None).
Proof.
  destruct 1 as [msg H|msg H|msg H|msg H|msg H]; eexists;
    (split;
     [first [ by apply migrate_query_fails | by apply migrate_begin_fails
            | by apply migrate_body_fails | by apply migrate_insert_fails
            | by apply migrate_commit_fails ]
     | done ]).
Qed.

End FailingTurn.

Lemma pair_fst {A B} (p : A * B) (a : A) : p.1 = a -> p = (a, p.2).
Proof. destruct p. cbn. by intros ->. Qed.

Lemma RunMigrations_error dm m w e w' :
  m ∈ GetMigrations ->
  migrate dm m w = (Returns (Some e), w') ->
  RunMigrations dm w = (Returns (Some e), w').
Proof.
  intros Hm H. apply list_elem_of_singleton in Hm as ->.
  unfold RunMigrations, GetMigrations. by rewrite range_cons, H.
Qed.

(** * The migration subsystem *)

(** C1. Idempotence of [RunMigrations].  In a store where every version of
    the catalog has a ledger row, a run changes neither the file nor the
    open transaction, announces no execution, and sends the driver nothing
    but ledger queries.  After a run that returned [nil], a second run is
    such a run, and it returns [nil] again when the driver does not fail.
    A single migration whose version is in the ledger is never executed
    again. *)
Theorem RunMigrations_idempotent (dm : DatabaseManager) (w : World) :
  (forall o w',
      (forall m, m ∈ GetMigrations -> ledger_has (Version m) (disk w)) ->
      RunMigrations dm w = (o, w') ->
      disk w' = disk w /\ txn w' = txn w /\
      executed (logs w') = executed (logs w) /\
      exists cs, calls w' = (calls w ++ cs)%list /\ Forall is_QueryRow cs)
  /\ (forall w1 o2 w2,
      RunMigrations dm w = (Returns None, w1) ->
      RunMigrations dm w1 = (o2, w2) ->
      disk w2 = disk w1 /\ txn w2 = txn w1 /\
      executed (logs w2) = executed (logs w1) /\
      (exists cs, calls w2 = (calls w1 ++ cs)%list /\ Forall is_QueryRow cs) /\
      (faults w1 = [] -> o2 = Returns None))
  /\ (forall m o w',
      ledger_has (Version m) (disk w) ->
      migrate dm m w = (o, w') ->
      disk w' = disk w /\ txn w' = txn w /\
      executed (logs w') = executed (logs w) /\
      exists cs, calls w' = (calls w ++ cs)%list /\ Forall is_QueryRow cs).
Proof.
  split; [|split].
  - intros o w' Hall. apply range_skip_all, Hall.
  - intros w1 o2 w2 H1 H2.
    pose proof (range_success_applied _ _ _ _ H1) as Happ.
    destruct (range_skip_all dm GetMigrations w1 o2 w2) as (Hd & Ht & He & Hc);
      [intros m Hm; by apply hasApplied_true, Happ|done|].
    do 4 (split; [done|]). intros Hf.
    destruct (DB dm) as [db|] eqn:Hdb.
    + destruct (range_skip_all_nil dm db GetMigrations w1 Hdb Hf Happ)
        as (w2' & Hrun & _).
      unfold RunMigrations in H2. congruence.
    + unfold RunMigrations, GetMigrations in H1.
      by rewrite range_cons, migrate_nil in H1.
  - intros m o w' Hl H. apply migrate_inv in H. by eapply migrate_run_skip.
Qed.

Lemma RunMigrations_idempotent_witness :
  disk (RunMigrations connected started).2 = disk started /\
  txn (RunMigrations connected started).2 = txn started /\
  executed (logs (RunMigrations connected started).2)
  = executed (logs started) /\
  exists cs,
    calls (RunMigrations connected started).2 = (calls started ++ cs)%list /\
    Forall is_QueryRow cs.
Proof.
  apply (proj1 (RunMigrations_idempotent connected started)
           (RunMigrations connected started).1).
  - intros m Hm. apply hasApplied_true.
    apply list_elem_of_singleton in Hm as ->. vm_compute. reflexivity.
  - apply surjective_pairing.
Defined.

(** C2. Atomicity of one migration.  When the body of a migration fails,
    or the insert of its ledger row, be it the driver that fails the call or
    the store that refuses a statement, the loop returns the error of that
    step, [failed to execute] or [failed to record], having rolled the
    transaction back: the file is as it was when the turn of that migration
    began, whatever the body did before it failed, no transaction is left
    open, and the ledger has no row for the version.  So it is for
    [RunMigrations] and its catalog.  Conversely, a run that returns one
    of these two errors, for version [v], stopped in the turn of a migration
    of version [v] and left the file as that turn found it. *)
Theorem migration_atomic :
  (forall dm db pre m post w w1 msg e,
      DB dm = Some db ->
      range_migrations dm pre w = (Returns None, w1) ->
      (body_fails m w1 msg /\ e = execute_failed (Version m) msg)
      \/ (insert_fails m w1 msg /\ e = record_failed (Version m) msg) ->
      exists w',
        range_migrations dm (pre ++ m :: post) w = (Returns (Some e), w') /\
        disk w' = disk w1 /\ txn w' = None /\
        ~ ledger_has (Version m) (disk w') /\
        exists cs, calls w' = (calls w1 ++ cs ++ [call_Rollback])%list)
  /\ (forall dm db m w msg e,
      DB dm = Some db -> m ∈ GetMigrations ->
      (body_fails m w msg /\ e = execute_failed (Version m) msg)
      \/ (insert_fails m w msg /\ e = record_failed (Version m) msg) ->
      exists w',
        RunMigrations dm w = (Returns (Some e), w') /\
        disk w' = disk w /\ txn w' = None /\
        ~ ledger_has (Version m) (disk w') /\
        exists cs, calls w' = (calls w ++ cs ++ [call_Rollback])%list)
  /\ (forall dm ms w w' e v msg,
      range_migrations dm ms w = (Returns (Some e), w') ->
      e = execute_failed v msg \/ e = record_failed v msg ->
      exists pre m post w1,
        ms = (pre ++ m :: post)%list /\ Version m = v /\
        range_migrations dm pre w = (Returns None, w1) /\
        migrate dm m w1 = (Returns (Some e), w') /\
        (body_fails m w1 msg \/ insert_fails m w1 msg) /\
        disk w' = disk w1 /\ txn w' = None /\
        ~ ledger_has v (disk w') /\
        exists cs, calls w' = (calls w1 ++ cs ++ [call_Rollback])%list)
  /\ (forall dm w w' e v msg,
      RunMigrations dm w = (Returns (Some e), w') ->
      e = execute_failed v msg \/ e = record_failed v msg ->
      v = 1 /\ disk w' = disk w /\ txn w' = None /\
      ~ ledger_has v (disk w')).
Proof.
  assert (forall dm db m w1 msg e,
             DB dm = Some db ->
             (body_fails m w1 msg /\ e = execute_failed (Version m) msg)
             \/ (insert_fails m w1 msg /\ e = record_failed (Version m) msg) ->
             exists w',
               migrate dm m w1 = (Returns (Some e), w') /\
               disk w' = disk w1 /\ txn w' = None /\
               ~ ledger_has (Version m) (disk w') /\
               exists cs, calls w' = (calls w1 ++ cs ++ [call_Rollback])%list)
    as Hturn.
  { intros dm db m w1 msg e Hdb [[H ->]|[H ->]]; eexists.
    - split; [by eapply migrate_body_fails|]. cbn.
      do 2 (split; [done|]).
      split; [by apply hasApplied_false, H|].
      by exists [call_QueryRow (count_query (Version m)); call_Begin;
                 call_TxExec (SQL m)].
    - split; [by eapply migrate_insert_fails|]. cbn.
      do 2 (split; [done|]).
      split; [by apply hasApplied_false, H|].
      by exists [call_QueryRow (count_query (Version m)); call_Begin;
                 call_TxExec (SQL m);
                 call_TxExec (record_statement (Version m) (Name m))]. }
  assert (forall dm ms w w' e v msg,
      range_migrations dm ms w = (Returns (Some e), w') ->
      e = execute_failed v msg \/ e = record_failed v msg ->
      exists pre m post w1,
        ms = (pre ++ m :: post)%list /\ Version m = v /\
        range_migrations dm pre w = (Returns None, w1) /\
        migrate dm m w1 = (Returns (Some e), w') /\
        (body_fails m w1 msg \/ insert_fails m w1 msg) /\
        disk w' = disk w1 /\ txn w' = None /\
        ~ ledger_has v (disk w') /\
        exists cs, calls w' = (calls w1 ++ cs ++ [call_Rollback])%list)
    as Hback.
  { intros dm ms w w' e v msg H He.
    apply range_error_inv in H as (pre & m & post & w1 & -> & Hpre & Hm).
    exists pre, m, post, w1. pose proof (migrate_inv _ _ _ _ _ Hm) as Hrun.
    assert (exists db, DB dm = Some db) as [db Hdb].
    { destruct (DB dm) eqn:E; [eauto|]. by rewrite migrate_nil in Hm. }
    destruct (migrate_error_inv _ _ _ _ Hdb _ _ Hm) as [cs Hcs].
    destruct He as [-> | ->]; inversion Hrun; subst; inversion Hcs; subst;
      cbn; (do 4 (split; [done|])); (split; [by auto|]);
      (do 2 (split; [done|])); (split; [by apply hasApplied_false|]).
    - by exists [call_QueryRow (count_query (Version m)); call_Begin;
                 call_TxExec (SQL m)].
    - by exists [call_QueryRow (count_query (Version m)); call_Begin;
                 call_TxExec (SQL m);
                 call_TxExec (record_statement (Version m) (Name m))]. }
  split; [|split; [|split]].
  - intros dm db pre m post w w1 msg e Hdb Hpre He.
    destruct (Hturn dm db m w1 msg e Hdb He) as (w' & Hm & H).
    exists w'. split; [by eapply range_stops|done].
  - intros dm db m w msg e Hdb Hin He.
    destruct (Hturn dm db m w msg e Hdb He) as (w' & Hm & H).
    exists w'. split; [by eapply RunMigrations_error|done].
  - done.
  - intros dm w w' e v msg H He. unfold RunMigrations in H.
    destruct (Hback _ _ _ _ _ _ _ H He)
      as (pre & m & post & w1 & Hms & <- & Hpre & _ & _ & Hd & Ht & Hl & _).
    unfold GetMigrations in Hms.
    destruct pre as [|m0 pre]; [|destruct pre; discriminate Hms].
    injection Hms as <- <-. cbn in Hpre. unfold ret in Hpre.
    injection Hpre as <-. done.
Qed.

Lemma migration_atomic_witness :
  Sqlite.exec 0 (SQL create_orders_twice) (disk started)
  = ({| tables := tables (disk started) ++
                  [{| tbl_name := "orders"; tbl_cols := [id_column];
                      tbl_rows := []; tbl_seq := 0 |}];
        indexes := indexes (disk started) |},
     Some "table users already exists")
  /\ (exists w',
        range_migrations connected
          ([create_users] ++ create_orders_twice :: [create_trades]) started
        = (Returns (Some (execute_failed (Version create_orders_twice)
                            "table users already exists")), w') /\
        disk w'
        = disk (range_migrations connected [create_users] started).2 /\
        txn w' = None /\
        ~ ledger_has (Version create_orders_twice) (disk w') /\
        exists cs,
          calls w'
          = (calls (range_migrations connected [create_users] started).2
             ++ cs ++ [call_Rollback])%list)
  /\ (exists w',
        range_migrations connected ([] ++ self_recording :: []) with_ledger
        = (Returns (Some (record_failed (Version self_recording)
                            "UNIQUE constraint failed: migrations.version")),
           w') /\
        disk w' = disk with_ledger /\ txn w' = None /\
        ~ ledger_has (Version self_recording) (disk w') /\
        exists cs,
          calls w' = (calls with_ledger ++ cs ++ [call_Rollback])%list)
  /\ (exists w',
        RunMigrations connected (ledger_failing 3 "disk I/O error")
        = (Returns (Some (record_failed (Version create_users)
                            "disk I/O error")), w') /\
        disk w' = disk (ledger_failing 3 "disk I/O error") /\
        txn w' = None /\
        ~ ledger_has (Version create_users) (disk w') /\
        exists cs,
          calls w'
          = (calls (ledger_failing 3 "disk I/O error")
             ++ cs ++ [call_Rollback])%list).
Proof.
  split; [vm_compute; reflexivity|]. split; [|split].
  - apply (proj1 migration_atomic connected
             (SqlDB "sqlite3" "trader_backend.db?_foreign_keys=on")
             [create_users] create_orders_twice [create_trades] started
             (range_migrations connected [create_users] started).2
             "table users already exists").
    + reflexivity.
    + apply pair_fst. vm_compute. reflexivity.
    + left. split; [|reflexivity].
      split; [split; vm_compute; reflexivity|].
      split; [vm_compute; reflexivity|].
      right. split; vm_compute; reflexivity.
  - apply (proj1 migration_atomic connected
             (SqlDB "sqlite3" "trader_backend.db?_foreign_keys=on")
             [] self_recording [] with_ledger with_ledger
             "UNIQUE constraint failed: migrations.version").
    + reflexivity.
    + reflexivity.
    + right. split; [|reflexivity].
      split; [split; vm_compute; reflexivity|].
      do 2 (split; [vm_compute; reflexivity|]).
      exists (Sqlite.exec (clock with_ledger + 3) (SQL self_recording)
                (disk with_ledger)).1.
      split; [vm_compute; reflexivity|].
      right. split; vm_compute; reflexivity.
  - apply (proj1 (proj2 migration_atomic) connected
             (SqlDB "sqlite3" "trader_backend.db?_foreign_keys=on")
             create_users (ledger_failing 3 "disk I/O error")
             "disk I/O error").
    + reflexivity.
    + apply list_elem_of_singleton. reflexivity.
    + right. split; [|reflexivity].
      split; [split; vm_compute; reflexivity|].
      do 2 (split; [vm_compute; reflexivity|]).
      exists (Sqlite.exec (clock (ledger_failing 3 "disk I/O error") + 3)
                (SQL create_users)
                (disk (ledger_failing 3 "disk I/O error"))).1.
      split; [vm_compute; reflexivity|].
      left. vm_compute. reflexivity.
Defined.

(** C3. Fail-fast.  When a step of the turn of a migration fails, the
    ledger query, the begin, the body, the ledger insert or the commit, the
    loop returns the error of that step at once, with the world as that turn
    left it: the driver calls of the run end with those of the turn up to
    the failure, and nothing is done for the migrations after it, whatever
    they are.  So it is for [RunMigrations] and its catalog.  Every error
    of the loop arises this way.  With the catalog of versions [1; 2; 3]
    whose second body fails, the run returns the error of version 2, the
    ledger holds version 1 only, and neither a ledger query nor an execution
    nor a table of version 3 is there. *)
Theorem RunMigrations_fail_fast :
  (forall dm db pre m post w w1 e cs,
      DB dm = Some db ->
      range_migrations dm pre w = (Returns None, w1) ->
      turn_fails m w1 e cs ->
      exists w2,
        migrate dm m w1 = (Returns (Some e), w2) /\
        range_migrations dm (pre ++ m :: post) w = (Returns (Some e), w2) /\
        calls w2 = (calls w1 ++ cs)%list /\ disk w2 = disk w1)
  /\ (forall dm db m w e cs,
      DB dm = Some db -> m ∈ GetMigrations ->
      turn_fails m w e cs ->
      exists w2,
        RunMigrations dm w = (Returns (Some e), w2) /\
        calls w2 = (calls w ++ cs)%list /\ disk w2 = disk w)
  /\ (forall dm ms w e w',
      range_migrations dm ms w = (Returns (Some e), w') ->
      exists pre m post w1 cs,
        ms = (pre ++ m :: post)%list /\
        range_migrations dm pre w = (Returns None, w1) /\
        migrate dm m w1 = (Returns (Some e), w') /\
        turn_fails m w1 e cs /\
        calls w' = (calls w1 ++ cs)%list)
  /\ (forall dm w e w',
      RunMigrations dm w = (Returns (Some e), w') ->
      exists m cs,
        m ∈ GetMigrations /\ turn_fails m w e cs /\
        calls w' = (calls w ++ cs)%list)
  /\ (range_migrations connected catalog_123 with_ledger).1
     = Returns (Some (execute_failed 2 "table users already exists"))
  /\ ledger_versions
       (disk (range_migrations connected catalog_123 with_ledger).2)
     = [VInt 1]
  /\ executed (logs (range_migrations connected catalog_123 with_ledger).2)
     = [1; 2]
  /\ ~ In (call_QueryRow (count_query 3))
          (calls (range_migrations connected catalog_123 with_ledger).2)
  /\ find_table "trades"
       (disk (range_migrations connected catalog_123 with_ledger).2)
     = None.
Proof.
  assert (forall dm ms w e w',
      range_migrations dm ms w = (Returns (Some e), w') ->
      exists pre m post w1 cs,
        ms = (pre ++ m :: post)%list /\
        range_migrations dm pre w = (Returns None, w1) /\
        migrate dm m w1 = (Returns (Some e), w') /\
        turn_fails m w1 e cs /\
        calls w' = (calls w1 ++ cs)%list) as Hback.
  { intros dm ms w e w' H.
    apply range_error_inv in H as (pre & m & post & w1 & -> & Hpre & Hm).
    assert (exists db, DB dm = Some db) as [db Hdb].
    { destruct (DB dm) eqn:E; [eauto|]. by rewrite migrate_nil in Hm. }
    destruct (migrate_error_inv _ _ _ _ Hdb _ _ Hm) as [cs Hcs].
    exists pre, m, post, w1, cs. do 4 (split; [done|]).
    destruct (migrate_fails _ _ _ _ Hdb _ _ Hcs) as (w2 & Hm2 & Hc & _).
    congruence. }
  split; [|split; [|split; [|split]]].
  - intros dm db pre m post w w1 e cs Hdb Hpre Hf.
    destruct (migrate_fails _ _ _ _ Hdb _ _ Hf) as (w2 & Hm & Hc & Hd & _).
    exists w2. split; [done|]. split; [by eapply range_stops|done].
  - intros dm db m w e cs Hdb Hin Hf.
    destruct (migrate_fails _ _ _ _ Hdb _ _ Hf) as (w2 & Hm & Hc & Hd & _).
    exists w2. split; [by eapply RunMigrations_error|done].
  - done.
  - intros dm w e w' H. unfold RunMigrations in H.
    destruct (Hback _ _ _ _ _ H)
      as (pre & m & post & w1 & cs & Hms & Hpre & _ & Hf & Hc).
    unfold GetMigrations in Hms.
    destruct pre as [|m0 pre]; [|destruct pre; discriminate Hms].
    injection Hms as <- <-. cbn in Hpre. unfold ret in Hpre.
    injection Hpre as <-. eexists _, cs.
    split; [apply list_elem_of_singleton; reflexivity|done].
  - repeat split; try (vm_compute; reflexivity).
    vm_compute. intuition discriminate.
Qed.

Lemma RunMigrations_fail_fast_witness :
  (exists w2,
      migrate connected create_orders_twice
        (range_migrations connected [create_users] with_ledger).2
      = (Returns (Some (execute_failed (Version create_orders_twice)
                          "table users already exists")), w2) /\
      range_migrations connected
        ([create_users] ++ create_orders_twice :: [create_trades])
        with_ledger
      = (Returns (Some (execute_failed (Version create_orders_twice)
                          "table users already exists")), w2) /\
      calls w2
      = (calls (range_migrations connected [create_users] with_ledger).2
         ++ [call_QueryRow (count_query (Version create_orders_twice));
             call_Begin; call_TxExec (SQL create_orders_twice);
             call_Rollback])%list /\
      disk w2
      = disk (range_migrations connected [create_users] with_ledger).2)
  /\ (exists w2,
        RunMigrations connected (ledger_failing 4 "disk I/O error")
        = (Returns (Some (commit_failed (Version create_users)
                            "disk I/O error")), w2) /\
        calls w2
        = (calls (ledger_failing 4 "disk I/O error")
           ++ [call_QueryRow (count_query (Version create_users));
               call_Begin; call_TxExec (SQL create_users);
               call_TxExec (record_statement (Version create_users)
                              (Name create_users));
               call_Commit])%list /\
        disk w2 = disk (ledger_failing 4 "disk I/O error"))
  /\ (exists w2,
        RunMigrations connected (fresh [])
        = (Returns (Some (check_failed "no such table: migrations")), w2) /\
        calls w2
        = (calls (fresh [])
           ++ [call_QueryRow (count_query (Version create_users))])%list /\
        disk w2 = disk (fresh [])).
Proof.
  split; [|split].
  - apply (proj1 RunMigrations_fail_fast connected
             (SqlDB "sqlite3" "trader_backend.db?_foreign_keys=on")
             [create_users] create_orders_twice [create_trades] with_ledger
             (range_migrations connected [create_users] with_ledger).2).
    + reflexivity.
    + apply pair_fst. vm_compute. reflexivity.
    + apply fails_body.
      split; [split; vm_compute; reflexivity|].
      split; [vm_compute; reflexivity|].
      right. split; vm_compute; reflexivity.
  - apply (proj1 (proj2 RunMigrations_fail_fast) connected
             (SqlDB "sqlite3" "trader_backend.db?_foreign_keys=on")
             create_users (ledger_failing 4 "disk I/O error")).
    + reflexivity.
    + apply list_elem_of_singleton. reflexivity.
    + apply fails_commit.
      split; [split; vm_compute; reflexivity|].
      do 3 (split; [vm_compute; reflexivity|]).
      exists (Sqlite.exec (clock (ledger_failing 4 "disk I/O error") + 3)
                (SQL create_users)
                (disk (ledger_failing 4 "disk I/O error"))).1.
      exists (Sqlite.exec (clock (ledger_failing 4 "disk I/O error") + 4)
                (record_statement (Version create_users)
                   (Name create_users))
                (Sqlite.exec (clock (ledger_failing 4 "disk I/O error") + 3)
                   (SQL create_users)
                   (disk (ledger_failing 4 "disk I/O error"))).1).1.
      repeat split; vm_compute; reflexivity.
  - apply (proj1 (proj2 RunMigrations_fail_fast) connected
             (SqlDB "sqlite3" "trader_backend.db?_foreign_keys=on")
             create_users (fresh [])).
    + reflexivity.
    + apply list_elem_of_singleton. reflexivity.
    + apply fails_query. right. split; vm_compute; reflexivity.
Defined.



(** The loop does not sort: it takes a slice in the order in which it is
    listed.  A slice that listed version 2 before version 1 would be run in
    that order; the order of a run is ascending because the catalog of
    [GetMigrations] is. *)
Lemma range_migrations_keeps_slice_order :
  (range_migrations connected catalog_21 with_ledger).1 = Returns None
  /\ executed (logs (range_migrations connected catalog_21 with_ledger).2)
     = [2; 1].
Proof. split; vm_compute; reflexivity. Qed.

(** C5. The ledger table.  [createMigrationsTable] sends one statement,
    [CREATE TABLE IF NOT EXISTS migrations] with the columns [id] (integer
    primary key, auto-incrementing), [version] (integer, not null, unique),
    [name] (text, not null) and [executed_at] (datetime, defaulting to the
    current timestamp).  Where the table exists the store is left as it is;
    where it does not and the call returns [nil], the store gains that table,
    empty, and nothing else.  The call returns [nil], and the table is there
    after it, unless the driver fails the call or an index has the name.
    [InitializeDatabase] ends at the open or at the ping exactly when the
    driver fails that call; otherwise [createMigrationsTable] runs on the
    connected manager right after the ping, and [RunMigrations] runs exactly
    when that call returned [nil], from the world it left, in which the
    ledger table exists: the calls of [RunMigrations] come after the
    statement. *)
Theorem createMigrationsTable_ledger_table :
  (forall dm db w o w',
      DB dm = Some db ->
      createMigrationsTable dm w = (o, w') ->
      calls w'
      = (calls w ++
         [call_Exec
            [CREATE_TABLE true "migrations"
               [ {| col_name := "id"; col_type := INTEGER;
                    col_primary_key_autoincrement := true;
                    col_not_null := false; col_unique := false;
                    col_default := None |};
                 {| col_name := "version"; col_type := INTEGER;
                    col_primary_key_autoincrement := false;
                    col_not_null := true; col_unique := true;
                    col_default := None |};
                 {| col_name := "name"; col_type := TEXT;
                    col_primary_key_autoincrement := false;
                    col_not_null := true; col_unique := false;
                    col_default := None |};
                 {| col_name := "executed_at"; col_type := DATETIME;
                    col_primary_key_autoincrement := false;
                    col_not_null := false; col_unique := false;
                    col_default := Some CURRENT_TIMESTAMP |} ]]])%list
      /\ (forall t, find_table "migrations" (disk w) = Some t ->
                    disk w' = disk w)
      /\ (find_table "migrations" (disk w) = None -> o = Returns None ->
          disk w'
          = {| tables := tables (disk w) ++
                         [{| tbl_name := "migrations";
                             tbl_cols := migrations_columns;
                             tbl_rows := []; tbl_seq := 0 |}];
               indexes := indexes (disk w) |})
      /\ (o <> Returns None -> disk w' = disk w)
      /\ (forall o2 w2,
          o = Returns None ->
          createMigrationsTable dm w' = (o2, w2) -> disk w2 = disk w')
      /\ (nth_fault 0 w = None ->
          find_table "migrations" (disk w) <> None
          \/ has_index "migrations" (disk w) = false ->
          o = Returns None /\ find_table "migrations" (disk w') <> None)
      /\ (forall msg,
          nth_fault 0 w = Some msg -> o = Returns (Some (create_failed msg))))
  /\ (forall dm w r w',
      InitializeDatabase dm w = (r, w') ->
      (exists msg,
          nth_fault 0 w = Some msg /\
          r = Returns (Some (DriverError msg), dm) /\
          calls w' = (calls w ++ [call_Open "sqlite3" (dsn dm)])%list)
      \/ (exists msg,
          nth_fault 0 w = None /\ nth_fault 1 w = Some msg /\
          r = Returns (Some (DriverError msg), dm) /\
          calls w'
          = (calls w ++ [call_Open "sqlite3" (dsn dm); call_Ping])%list)
      \/ (nth_fault 0 w = None /\ nth_fault 1 w = None /\
          exists w1 o2 w2,
            Connect dm w
            = (Returns (None, set_DB (Some (SqlDB "sqlite3" (dsn dm))) dm),
               w1) /\
            createMigrationsTable
              (set_DB (Some (SqlDB "sqlite3" (dsn dm))) dm) w1 = (o2, w2) /\
            calls w2
            = (calls w ++ [call_Open "sqlite3" (dsn dm); call_Ping;
                           call_Exec create_migrations_query])%list /\
            ((exists msg,
                 (nth_fault 2 w = Some msg \/
                  (nth_fault 2 w = None /\
                   (exec (clock w + 3) create_migrations_query (disk w)).2
                   = Some msg)) /\
                 r = Returns (Some (create_failed msg),
                              set_DB (Some (SqlDB "sqlite3" (dsn dm))) dm) /\
                 w' = w2 /\ disk w' = disk w)
             \/ (nth_fault 2 w = None /\ o2 = Returns None /\
                 find_table "migrations" (disk w2) <> None /\
                 exists o3 w3 rest,
                   RunMigrations
                     (set_DB (Some (SqlDB "sqlite3" (dsn dm))) dm) w2
                   = (o3, w3) /\
                   calls w3 = (calls w2 ++ rest)%list /\
                   calls w' = calls w3 /\
                   match o3 with
                   | Returns None =>
                       r = Returns
                             (None,
                              set_DB (Some (SqlDB "sqlite3" (dsn dm))) dm)
                   | Returns (Some e) =>
                       r = Returns
                             (Some e,
                              set_DB (Some (SqlDB "sqlite3" (dsn dm))) dm)
                   | Panics _ => False
                   end)))).
Proof.
  split.
  - intros dm db w o w' Hdb H.
    assert (forall w o w',
               createMigrationsTable dm w = (o, w') ->
               forall t, find_table "migrations" (disk w) = Some t ->
                         disk w' = disk w) as Hkeep.
    { clear. intros w o w' H t Ht.
      apply createMigrationsTable_inv in H
        as [(_ & _ & ->)|[(msg & _ & ->)|(_ & _ & s & E & ->)]]; try done.
      apply create_migrations_exec in E. by rewrite Ht in E. }
    pose proof (Hkeep _ _ _ H) as Hk.
    pose proof (createMigrationsTable_run _ _ _ _ _ Hdb H) as Hrun.
    assert ((nth_fault 0 w = None ->
             find_table "migrations" (disk w) <> None
             \/ has_index "migrations" (disk w) = false ->
             o = Returns None /\ find_table "migrations" (disk w') <> None)
            /\ (forall msg, nth_fault 0 w = Some msg ->
                            o = Returns (Some (create_failed msg)))) as Hfw.
    { destruct Hrun as [(msg & [Hf|[Hf He]] & -> & ->)|(Hf & -> & s & E & ->)].
      - split; [congruence|]. intros msg' Hf'. congruence.
      - split; [|congruence]. intros _ Hex. exfalso. revert He. cbn.
        destruct (find_table "migrations" (disk w)); [done|].
        destruct Hex as [? | ->]; done.
      - split; [|congruence]. intros _ _. split; [done|]. cbn.
        by eapply create_migrations_found. }
    destruct Hfw as [Hfw1 Hfw2].
    apply createMigrationsTable_inv in H
      as [(? & _)|[(msg & -> & ->)|(-> & _ & s & E & ->)]]; [congruence| |].
    + do 5 (split; [done|]). split; [exact Hfw1|exact Hfw2].
    + apply create_migrations_exec in E.
      split; [done|]. split; [done|]. split.
      { intros Hn. cbn. by rewrite Hn in E. }
      split; [done|]. split; [|split; [exact Hfw1|exact Hfw2]].
      cbn. intros o2 w2 _ H2.
      destruct (find_table "migrations" (disk w)) as [t|] eqn:Ht; subst s.
      * by eapply (Hkeep _ _ _ H2).
      * eapply (Hkeep _ _ _ H2). cbn. unfold find_table. cbn.
        rewrite find_table_app. unfold find_table in Ht. rewrite Ht. done.
  - intros dm w r w' H.
    apply InitializeDatabase_inv in H as (r1 & w1 & HC & H).
    pose proof HC as HC0.
    apply Connect_inv in HC
      as [(msg & Hf0 & -> & ->)|[(msg & Hf0 & Hf1 & -> & ->)|
          (Hf0 & Hf1 & -> & ->)]].
    + destruct H as [(e & _ & -> & ->)|(? & ? & ? & [=] & _)]. left.
      by exists msg.
    + destruct H as [(e & _ & -> & ->)|(? & ? & ? & [=] & _)]. right. left.
      by exists msg.
    + destruct H as [(e & [=] & _)|(dm1 & o2 & w2 & [= <-] & HM & H)].
      right. right. do 2 (split; [done|]).
      eexists _, o2, w2. split; [exact HC0|]. split; [exact HM|].
      destruct (createMigrationsTable_run
                  (set_DB (Some (SqlDB "sqlite3" (dsn dm))) dm)
                  (SqlDB "sqlite3" (dsn dm)) _ _ _ eq_refl HM)
        as [(msg & Hwhy & -> & ->)|(Hf2 & -> & s & E & ->)].
      * split; [cbn; by rewrite <- app_assoc|]. left. exists msg.
        destruct H as [(e & [= <-] & -> & ->)|([=] & _)].
        split; [|done].
        rewrite nth_fault_after in Hwhy.
        destruct Hwhy as [Hf2|[Hf2 He]]; [by left|right].
        split; [done|].
        replace (clock w + 3) with (clock w + Z.of_nat 2 + 1) by lia.
        exact He.
      * rewrite nth_fault_after in Hf2.
        split; [cbn; by rewrite <- app_assoc|]. right.
        split; [done|]. split; [done|].
        split; [cbn; by eapply create_migrations_found|].
        destruct H as [(e & [=] & _)|(_ & o3 & w3 & HR & H)].
        pose proof (range_calls_prefix _ _ _ _ _ HR) as [rest Hrest].
        exists o3, w3, rest. split; [done|]. split; [done|].
        destruct H as [(e & -> & -> & ->)|(-> & -> & ->)]; done.
Qed.

Lemma createMigrationsTable_ledger_table_witness :
  disk (createMigrationsTable connected (fresh [])).2
  = {| tables := [{| tbl_name := "migrations";
                     tbl_cols := migrations_columns;
                     tbl_rows := []; tbl_seq := 0 |}];
       indexes := [] |}
  /\ ((exists msg,
          nth_fault 0 (fresh []) = Some msg /\
          (InitializeDatabase manager (fresh [])).1
          = Returns (Some (DriverError msg), manager) /\
          calls (InitializeDatabase manager (fresh [])).2
          = (calls (fresh []) ++ [call_Open "sqlite3" (dsn manager)])%list)
      \/ (exists msg,
          nth_fault 0 (fresh []) = None /\
          nth_fault 1 (fresh []) = Some msg /\
          (InitializeDatabase manager (fresh [])).1
          = Returns (Some (DriverError msg), manager) /\
          calls (InitializeDatabase manager (fresh [])).2
          = (calls (fresh [])
             ++ [call_Open "sqlite3" (dsn manager); call_Ping])%list)
      \/ (nth_fault 0 (fresh []) = None /\ nth_fault 1 (fresh []) = None /\
          exists w1 o2 w2,
            Connect manager (fresh [])
            = (Returns (None,
                        set_DB (Some (SqlDB "sqlite3" (dsn manager)))
                          manager), w1) /\
            createMigrationsTable
              (set_DB (Some (SqlDB "sqlite3" (dsn manager))) manager) w1
            = (o2, w2) /\
            calls w2
            = (calls (fresh [])
               ++ [call_Open "sqlite3" (dsn manager); call_Ping;
                   call_Exec create_migrations_query])%list /\
            ((exists msg,
                 (nth_fault 2 (fresh []) = Some msg \/
                  (nth_fault 2 (fresh []) = None /\
                   (exec (clock (fresh []) + 3) create_migrations_query
                      (disk (fresh []))).2 = Some msg)) /\
                 (InitializeDatabase manager (fresh [])).1
                 = Returns (Some (create_failed msg),
                            set_DB (Some (SqlDB "sqlite3" (dsn manager)))
                              manager) /\
                 (InitializeDatabase manager (fresh [])).2 = w2 /\
                 disk (InitializeDatabase manager (fresh [])).2
                 = disk (fresh []))
             \/ (nth_fault 2 (fresh []) = None /\ o2 = Returns None /\
                 find_table "migrations" (disk w2) <> None /\
                 exists o3 w3 rest,
                   RunMigrations
                     (set_DB (Some (SqlDB "sqlite3" (dsn manager))) manager)
                     w2
                   = (o3, w3) /\
                   calls w3 = (calls w2 ++ rest)%list /\
                   calls (InitializeDatabase manager (fresh [])).2
                   = calls w3 /\
                   match o3 with
                   | Returns None =>
                       (InitializeDatabase manager (fresh [])).1
                       = Returns
                           (None,
                            set_DB (Some (SqlDB "sqlite3" (dsn manager)))
                              manager)
                   | Returns (Some e) =>
                       (InitializeDatabase manager (fresh [])).1
                       = Returns
                           (Some e,
                            set_DB (Some (SqlDB "sqlite3" (dsn manager)))
                              manager)
                   | Panics _ => False
                   end))))
  /\ calls (InitializeDatabase manager (fresh [])).2
     = [call_Open "sqlite3" "trader_backend.db?_foreign_keys=on"; call_Ping;
        call_Exec create_migrations_query;
        call_QueryRow (count_query 1); call_Begin;
        call_TxExec (SQL create_users);
        call_TxExec (record_statement 1 "create_users_table");
        call_Commit].
Proof.
  split; [|split].
  - apply (proj1 createMigrationsTable_ledger_table connected
             (SqlDB "sqlite3" "trader_backend.db?_foreign_keys=on")
             (fresh []) (createMigrationsTable connected (fresh [])).1).
    + reflexivity.
    + apply surjective_pairing.
    + reflexivity.
    + vm_compute. reflexivity.
  - apply (proj2 createMigrationsTable_ledger_table manager (fresh [])
             (InitializeDatabase manager (fresh [])).1).
    apply surjective_pairing.
  - vm_compute. reflexivity.
Defined.

(** C6.  The errors of one turn are of five kinds; those of a failed body,
    ledger insert or commit are formatted with the version, those of a
    failed ledger query or of a transaction that could not begin are not.
    On a fresh file whose first ledger query finds the file locked, the
    start-up returns an error whose message names no version. *)
Theorem check_status_error_omits_version :
  (InitializeDatabase manager locked).1
  = Returns (Some (check_failed "database is locked"), connected)
  /\ Error (check_failed "database is locked")
     = "failed to check migration status: database is locked"
  /\ error_ints (check_failed "database is locked") = []
  /\ executed (logs (InitializeDatabase manager locked).2) = []
  /\ (forall v msg,
        error_ints (execute_failed v msg) = [v] /\
        error_ints (record_failed v msg) = [v] /\
        error_ints (commit_failed v msg) = [v] /\
        error_ints (begin_failed msg) = [])
  /\ Error (execute_failed 1 "disk I/O error")
     = "failed to execute migration 1: disk I/O error"
  /\ (forall dm m w e w',
        migrate dm m w = (Returns (Some e), w') ->
        exists msg,
          e = check_failed msg \/ e = begin_failed msg \/
          e = execute_failed (Version m) msg \/
          e = record_failed (Version m) msg \/
          e = commit_failed (Version m) msg).
Proof.
  repeat split; try (vm_compute; reflexivity).
  intros dm m w e w' H. apply migrate_inv in H. inversion H; eauto 10.
Qed.

(** ** The ledger only grows *)

Lemma exec_stmt_rows_same now st s s' name :
  exec_stmt now st s = Done s' ->
  (forall or_ignore cols vals, st <> INSERT or_ignore name cols vals) ->
  rows_of name s' = rows_of name s.
Proof.
  intros H Hst. unfold rows_of.
  destruct (exec_stmt_table _ _ _ _ name H)
    as [->|[[-> [cols ->]]|[(t & r & seq & _ & _ & ign & cols & vals & -> & _)|
        (t & seq & -> & ->)]]];
    [done|done| |done]. by destruct (Hst ign cols vals).
Qed.

Lemma exec_rows_same now sql s s' e name :
  exec now sql s = (s', e) ->
  Forall (fun st => forall or_ignore cols vals,
              st <> INSERT or_ignore name cols vals) sql ->
  rows_of name s' = rows_of name s.
Proof.
  revert s. induction sql as [|st sql IH]; intros s; cbn [exec].
  - by intros [= <-].
  - destruct (exec_stmt now st s) as [s1|msg] eqn:E.
    + intros H Hall. apply Forall_cons in Hall as [Hst Hall].
      rewrite (IH _ H Hall). by eapply exec_stmt_rows_same.
    + by intros [= <-].
Qed.

Lemma InitializeDatabase_ledger_prefix dm w r w' :
  InitializeDatabase dm w = (r, w') ->
  ledger_rows (disk w) `prefix_of` ledger_rows (disk w').
Proof.
  intros H. apply InitializeDatabase_inv in H as (r1 & w1 & HC & H).
  assert (disk w1 = disk w) as Hw1.
  { apply Connect_inv in HC
      as [(msg & _ & _ & ->)|[(msg & _ & _ & _ & ->)|(_ & _ & _ & ->)]];
      done. }
  rewrite <- Hw1.
  destruct H as [(e & _ & _ & ->)|(dm1 & o2 & w2 & _ & HM & H)]; [done|].
  apply createMigrationsTable_ledger_prefix in HM.
  destruct H as [(e & _ & _ & ->)|(_ & o3 & w3 & HR & H)]; [done|].
  apply range_ledger_prefix in HR.
  destruct H as [(e & _ & _ & ->)|(_ & _ & ->)]; cbn; by etrans.
Qed.

(** C7. Ledger rows are append-only.  The rows the ledger had before a run
    of [createMigrationsTable], [RunMigrations] or [InitializeDatabase] are
    the first rows it has after the run, unchanged.  [createMigrationsTable]
    adds none.  [RunMigrations] adds none, or returns [nil] after it added,
    with the commit as its last driver call, one row for version 1, which
    had no row before. *)
Theorem ledger_append_only (dm : DatabaseManager) (w : World) :
  (forall o w',
      createMigrationsTable dm w = (o, w') ->
      ledger_rows (disk w') = ledger_rows (disk w))
  /\ (forall o w',
      RunMigrations dm w = (o, w') ->
      ledger_rows (disk w) `prefix_of` ledger_rows (disk w') /\
      (ledger_rows (disk w') = ledger_rows (disk w)
       \/ exists r cs,
           ledger_rows (disk w') = (ledger_rows (disk w) ++ [r])%list /\
           field r "version" = Some (VInt 1) /\
           field r "name" = Some (VText "create_users_table") /\
           ~ ledger_has 1 (disk w) /\
           o = Returns None /\
           calls w' = (calls w ++ cs ++ [call_Commit])%list))
  /\ (forall ms o w',
      range_migrations dm ms w = (o, w') ->
      ledger_rows (disk w) `prefix_of` ledger_rows (disk w'))
  /\ (forall r w',
      InitializeDatabase dm w = (r, w') ->
      ledger_rows (disk w) `prefix_of` ledger_rows (disk w')).
Proof.
  split; [|split; [|split]].
  - intros o w' H. apply createMigrationsTable_inv in H
      as [(_ & _ & ->)|[(msg & _ & ->)|(_ & _ & s & E & ->)]]; try done.
    cbn. apply create_migrations_exec in E. unfold ledger_rows, rows_of.
    destruct (find_table "migrations" (disk w)) as [t|] eqn:Ht; subst s;
      [by rewrite Ht|].
    unfold find_table in *. cbn. by rewrite find_table_app, Ht.
  - intros o w' H. split; [by eapply range_ledger_prefix|].
    apply RunMigrations_inv in H.
    inversion H as [| | | | | | |t1 t2 Hp Hb Hr]; subst; cbn; auto.
    right.
    assert (rows_of "migrations" t1 = rows_of "migrations" (disk w)) as H1.
    { eapply exec_rows_same; [done|]. by repeat constructor. }
    destruct (insert_row _ _ _ _ _ _ "version" (VInt 1) Hr)
      as (r & cs & Hrows & Hf & _); [done..|].
    destruct (insert_row _ _ _ _ _ _ "name" (VText "create_users_table") Hr)
      as (r' & cs' & Hrows' & Hf' & _); [done..|].
    rewrite Hrows in Hrows'. apply app_inj_tail in Hrows' as [_ <-].
    exists r. eexists. unfold ledger_rows. rewrite Hrows, H1.
    do 3 (split; [done|]). split; [by apply hasApplied_false|].
    split; [done|].
    by instantiate (1 := [call_QueryRow _; call_Begin; call_TxExec _;
                          call_TxExec _]).
  - intros ms o w'. apply range_ledger_prefix.
  - intros r w'. apply InitializeDatabase_ledger_prefix.
Qed.

Lemma ledger_append_only_witness :
  ledger_rows (disk with_ledger)
  `prefix_of` ledger_rows (disk (RunMigrations connected with_ledger).2)
  /\ (ledger_rows (disk (RunMigrations connected with_ledger).2)
      = ledger_rows (disk with_ledger)
      \/ exists r cs,
          ledger_rows (disk (RunMigrations connected with_ledger).2)
          = (ledger_rows (disk with_ledger) ++ [r])%list /\
          field r "version" = Some (VInt 1) /\
          field r "name" = Some (VText "create_users_table") /\
          ~ ledger_has 1 (disk with_ledger) /\
          (RunMigrations connected with_ledger).1 = Returns None /\
          calls (RunMigrations connected with_ledger).2
          = (calls with_ledger ++ cs ++ [call_Commit])%list).
Proof.
  apply (proj1 (proj2 (ledger_append_only connected with_ledger))).
  apply surjective_pairing.
Defined.

(** ** The first start-up *)

Lemma RunMigrations_without_ledger_table :
  (RunMigrations connected (fresh [])).1
  = Returns (Some (check_failed "no such table: migrations"))
  /\ disk (RunMigrations connected (fresh [])).2 = Sqlite.empty.
Proof. split; vm_compute; reflexivity. Qed.

Lemma bootstrap_store dm w w1 w2 :
  disk w = Sqlite.empty ->
  createMigrationsTable dm w = (Returns None, w1) ->
  RunMigrations dm w1 = (Returns None, w2) ->
  ledger_rows (disk w2)
  = [[("id", VInt 1); ("version", VInt 1);
      ("name", VText "create_users_table");
      ("executed_at", VTime (clock w + 1 + 4))]]
  /\ table_names (disk w2) = ["migrations"; "users"].
Proof.
  intros Hw HM HR.
  apply createMigrationsTable_inv in HM
    as [(_ & [=] & _)|[(msg & [=] & _)|(_ & _ & s & E & ->)]].
  rewrite Hw in E. vm_compute in E. injection E as <-.
  apply RunMigrations_inv in HR.
  inversion HR as [| |Hs| | | | |t1 t2 Hp Hb Hr]; subst.
  - vm_compute in Hs. discriminate Hs.
  - cbn [after disk clock] in Hb, Hr. clear HR Hp.
    replace (clock w + Z.of_nat 1) with (clock w + 1) in * by lia.
    generalize dependent (clock w + 1). intros now Hb Hr.
    vm_compute in Hb. injection Hb as <-.
    vm_compute in Hr. injection Hr as <-.
    split; vm_compute; reflexivity.
Qed.

(** C8. The bootstrap scenario.  The catalog of [GetMigrations] is the
    single entry of version 1, [create_users_table].  On an empty store,
    once [createMigrationsTable] and then [RunMigrations] have returned
    [nil], the ledger has exactly one row, of version 1, and the tables of
    the store are [migrations] and [users]. *)
Theorem bootstrap_scenario (dm : DatabaseManager) (w w1 w2 : World) :
  disk w = Sqlite.empty ->
  createMigrationsTable dm w = (Returns None, w1) ->
  RunMigrations dm w1 = (Returns None, w2) ->
  map (fun m => (Version m, Name m)) GetMigrations
  = [(1, "create_users_table")]
  /\ (exists r, ledger_rows (disk w2) = [r] /\
                field r "version" = Some (VInt 1) /\
                field r "name" = Some (VText "create_users_table"))
  /\ ledger_versions (disk w2) = [VInt 1]
  /\ In "users" (table_names (disk w2))
  /\ In "migrations" (table_names (disk w2)).
Proof.
  intros Hw HM HR.
  destruct (bootstrap_store _ _ _ _ Hw HM HR) as [Hrows Htables].
  split; [done|]. split; [|split].
  - eexists. split; [done|]. by split.
  - unfold ledger_versions. by rewrite Hrows.
  - rewrite Htables. cbn. tauto.
Qed.

Lemma bootstrap_scenario_witness :
  map (fun m => (Version m, Name m)) GetMigrations
  = [(1, "create_users_table")]
  /\ (exists r,
        ledger_rows (disk (RunMigrations connected with_ledger).2) = [r] /\
        field r "version" = Some (VInt 1) /\
        field r "name" = Some (VText "create_users_table"))
  /\ ledger_versions (disk (RunMigrations connected with_ledger).2)
     = [VInt 1]
  /\ In "users" (table_names (disk (RunMigrations connected with_ledger).2))
  /\ In "migrations"
       (table_names (disk (RunMigrations connected with_ledger).2)).
Proof.
  apply (bootstrap_scenario connected (fresh []) with_ledger
           (RunMigrations connected with_ledger).2).
  - reflexivity.
  - vm_compute. reflexivity.
  - vm_compute. reflexivity.
Defined.

(** A start-up that returns [nil] on an empty store ends in the same
    state. *)
Lemma InitializeDatabase_bootstrap dm w dm' w' :
  disk w = Sqlite.empty ->
  InitializeDatabase dm w = (Returns (None, dm'), w') ->
  ledger_versions (disk w') = [VInt 1]
  /\ table_names (disk w') = ["migrations"; "users"].
Proof.
  intros Hw H. apply InitializeDatabase_inv in H as (r1 & w1 & HC & H).
  assert (disk w1 = Sqlite.empty) as Hw1.
  { apply Connect_inv in HC
      as [(msg & _ & _ & ->)|[(msg & _ & _ & _ & ->)|(_ & _ & _ & ->)]];
      done. }
  destruct H as [(e & -> & He & _)|(dm1 & o2 & w2 & _ & HM & H)]; [done|].
  destruct H as [(e & _ & He & _)|(-> & o3 & w3 & HR & H)]; [done|].
  destruct H as [(e & _ & He & _)|(-> & _ & ->)]; [done|].
  destruct (bootstrap_store _ _ _ _ Hw1 HM HR) as [Hrows Htables].
  cbn. unfold ledger_versions. by rewrite Hrows.
Qed.

(** ** Connecting *)

Lemma Connect_attempts_failed n dm w errs dm' w' :
  Connect_attempts n dm w = (Returns (errs, dm'), w') ->
  Forall (fun err => err <> None) errs -> dm' = dm.
Proof.
  revert w errs. induction n as [|n IH]; intros w errs; cbn [Connect_attempts].
  - by intros [= <- <- <-].
  - unfold bind at 1. destruct (Connect dm w) as [r1 w1] eqn:EC.
    apply Connect_inv in EC
      as [(msg & _ & -> & _)|[(msg & _ & _ & -> & _)|(_ & _ & -> & _)]].
    + unfold bind at 1.
      destruct (Connect_attempts n dm w1) as [[[errs' dm2]|?] w2] eqn:EA;
        [|done].
      unfold ret. intros [= <- <- <-] Hall.
      apply Forall_cons in Hall as [_ Hall]. by eapply IH.
    + unfold bind at 1.
      destruct (Connect_attempts n dm w1) as [[[errs' dm2]|?] w2] eqn:EA;
        [|done].
      unfold ret. intros [= <- <- <-] Hall.
      apply Forall_cons in Hall as [_ Hall]. by eapply IH.
    + unfold bind at 1.
      destruct (Connect_attempts n _ w1) as [[[errs' dm2]|?] w2] eqn:EA;
        [|done].
      unfold ret. intros [= <- <- <-] Hall.
      by apply Forall_cons in Hall as [? _].
Qed.

(** C9. A failed [Connect] leaves the manager as it was.  [Connect] never
    panics; it returns an error exactly when opening or pinging failed, and
    then the manager is unchanged; it sets [DB] only when both went
    through.  A manager made by [NewDatabaseManager] has no handle, and has
    none after any number of calls of [Connect] that all failed. *)
Theorem Connect_failure_keeps_DB (dm : DatabaseManager) (w : World)
    (r : outcome (option error * DatabaseManager)) (w' : World) :
  Connect dm w = (r, w') ->
  (exists x, r = Returns x)
  /\ (forall e dm', r = Returns (Some e, dm') ->
        dm' = dm /\ DB dm' = DB dm /\ disk w' = disk w /\
        (fault w <> None \/
         fault (enter (call_Open "sqlite3" (dsn dm)) w) <> None))
  /\ (forall dm', r = Returns (None, dm') ->
        DB dm' = Some (SqlDB "sqlite3" (dsn dm)) /\
        fault w = None /\
        fault (enter (call_Open "sqlite3" (dsn dm)) w) = None /\
        calls w'
        = (calls w ++ [call_Open "sqlite3" (dsn dm); call_Ping])%list)
  /\ (forall dbPath lg, DB (NewDatabaseManager dbPath lg) = None)
  /\ (forall n dbPath lg w0 errs dm' w1,
        Connect_attempts n (NewDatabaseManager dbPath lg) w0
        = (Returns (errs, dm'), w1) ->
        Forall (fun err => err <> None) errs -> DB dm' = None).
Proof.
  intros H.
  assert (forall n dbPath lg w0 errs dm' w1,
             Connect_attempts n (NewDatabaseManager dbPath lg) w0
             = (Returns (errs, dm'), w1) ->
             Forall (fun err => err <> None) errs -> DB dm' = None) as Hn.
  { intros n dbPath lg w0 errs dm' w1 HA Hall.
    by rewrite (Connect_attempts_failed _ _ _ _ _ _ HA Hall). }
  apply Connect_inv in H
    as [(msg & Hf & -> & ->)|[(msg & Hf & Hp & -> & ->)|(Hf & Hp & -> & ->)]].
  - split; [eauto|]. split; [|done].
    intros e dm' [= <- <-]. do 3 (split; [done|]). left. congruence.
  - split; [eauto|]. split; [|done].
    intros e dm' [= <- <-]. do 3 (split; [done|]). right. congruence.
  - split; [eauto|]. split; [done|]. split; [|done].
    intros dm' [= <-]. done.
Qed.

Lemma Connect_failure_keeps_DB_witness :
  (exists x, (Connect manager (fresh [None; Some "unable to open database file"])).1
             = Returns x)
  /\ (forall e dm',
        (Connect manager (fresh [None; Some "unable to open database file"])).1
        = Returns (Some e, dm') ->
        dm' = manager /\ DB dm' = DB manager /\
        disk (Connect manager
                (fresh [None; Some "unable to open database file"])).2
        = disk (fresh [None; Some "unable to open database file"]) /\
        (fault (fresh [None; Some "unable to open database file"]) <> None \/
         fault (enter (call_Open "sqlite3" (dsn manager))
                  (fresh [None; Some "unable to open database file"]))
         <> None)).
Proof.
  pose proof (Connect_failure_keeps_DB manager
                (fresh [None; Some "unable to open database file"])
                (Connect manager
                   (fresh [None; Some "unable to open database file"])).1
                (Connect manager
                   (fresh [None; Some "unable to open database file"])).2
                (surjective_pairing _)) as (H1 & H2 & _).
  exact (conj H1 H2).
Defined.

(** ** [main] *)

(** C10. The stale handle of [cmd/t-backend].  [main] builds the user model
    from [dbManager.DB] before [InitializeDatabase] runs: whatever the
    environment and the store, the handle of the user model is [nil], also
    when the initialisation went through and the manager holds the opened
    handle. *)
Theorem main_user_model_handle_nil (getenv : string -> string) (w : World)
    (app : application) (dbManager : DatabaseManager) (err : option error)
    (w' : World) :
  main getenv w = (Returns (app, dbManager, err), w') ->
  UserModel_DB (user app) = None
  /\ (err = None ->
      DB dbManager
      = Some (SqlDB "sqlite3" "trader_backend.db?_foreign_keys=on")
      /\ UserModel_DB (user app) <> DB dbManager)
  /\ (forall e, err = Some e -> exists r w0,
        InitializeDatabase (NewDatabaseManager "trader_backend.db" ZapLogger) w
        = (Returns (Some e, r), w0)).
Proof.
  unfold main. cbn [getConfig dbPath logLevel newLogger].
  unfold bind at 1.
  destruct (InitializeDatabase _ w) as [r1 w1] eqn:EI.
  pose proof (InitializeDatabase_inv _ _ _ _ EI) as (rc & wc & HC & H).
  apply Connect_inv in HC
    as [(msg & _ & -> & _)|[(msg & _ & _ & -> & _)|(_ & _ & -> & _)]].
  - destruct H as [(e & _ & -> & _)|(? & ? & ? & [=] & _)].
    unfold log, bind, ret. intros [= <- <- <- <-].
    split; [done|]. split; [done|]. intros e0 [= <-]. eauto.
  - destruct H as [(e & _ & -> & _)|(? & ? & ? & [=] & _)].
    unfold log, bind, ret. intros [= <- <- <- <-].
    split; [done|]. split; [done|]. intros e0 [= <-]. eauto.
  - destruct H as [(e & [=] & _)|(dm1 & o2 & w2 & [= <-] & _ & H)].
    destruct H as [(e & _ & -> & _)|(_ & o3 & w3 & _ & H)].
    { unfold log, bind, ret. intros [= <- <- <- <-].
      split; [done|]. split; [done|]. intros e0 [= <-]. eauto. }
    destruct H as [(e & _ & -> & _)|(_ & -> & _)].
    { unfold log, bind, ret. intros [= <- <- <- <-].
      split; [done|]. split; [done|]. intros e0 [= <-]. eauto. }
    unfold ret. intros [= <- <- <- <-].
    split; [done|]. split; [|done]. intros _. split; [reflexivity|done].
Qed.

Lemma main_user_model_handle_nil_witness :
  UserModel_DB
    (user {| application_logger := None;
             user := {| UserModel_DB := None;
                        UserModel_Logger := ZapLogger |} |})
  = None
  /\ (@None error = None ->
      DB connected
      = Some (SqlDB "sqlite3" "trader_backend.db?_foreign_keys=on")
      /\ UserModel_DB
           (user {| application_logger := None;
                    user := {| UserModel_DB := None;
                               UserModel_Logger := ZapLogger |} |})
         <> DB connected).
Proof.
  pose proof (main_user_model_handle_nil (fun _ => "") (fresh [])
                {| application_logger := None;
                   user := {| UserModel_DB := None;
                              UserModel_Logger := ZapLogger |} |}
                connected None
                (main (fun _ => "") (fresh [])).2) as H.
  refine (let '(conj H1 (conj H2 _)) := H _ in conj H1 H2).
  vm_compute. reflexivity.
Defined.

(** * Further properties of the manager *)

(** ** Calls into the store *)

Lemma fault_nil w : faults w = [] -> fault w = None.
Proof. unfold fault. by intros ->. Qed.

Lemma DB_Exec_inv db sql w o w' :
  DB_Exec db sql w = (o, w') ->
  (db = None /\ o = Panics nil_dereference /\ w' = w)
  \/ (exists msg,
        fault w = Some msg /\ o = Returns (Some msg) /\
        w' = after w 1 [call_Exec sql] [] (disk w) (txn w))
  \/ (exists s e,
        fault w = None /\ exec (clock w + 1) sql (disk w) = (s, e) /\
        o = Returns e /\
        w' = after w 1 [call_Exec sql] [] s (txn w)).
Proof.
  unfold DB_Exec, deref, driver, bind, ret, panic.
  destruct db as [db|]; [|intros [= <- <-]; by left].
  cbn -[fault exec]. destruct (fault w) as [msg|] eqn:Hf; cbn -[fault exec].
  - intros [= <- <-]. right. left. exists msg. do 2 (split; [done|]). world_eq.
  - destruct (exec _ _ _) as [s e] eqn:E. intros [= <- <-]. right. right.
    exists s, e. do 3 (split; [done|]). world_eq.
Qed.

Lemma Connect_ok dm w :
  fault w = None ->
  fault (enter (call_Open "sqlite3" (dsn dm)) w) = None ->
  Connect dm w
  = (Returns (None, set_DB (Some (SqlDB "sqlite3" (dsn dm))) dm),
     after w 2 [call_Open "sqlite3" (dsn dm); call_Ping]
       [logger_Info "Connected to database."
          [zap_String "Connected to database." (DBPath dm)]]
       (disk w) (txn w)).
Proof.
  intros Hf Hp. destruct (Connect dm w) as [r w'] eqn:E.
  apply Connect_inv in E
    as [(msg & ? & _)|[(msg & _ & ? & _)|(_ & _ & -> & ->)]];
    congruence.
Qed.

Lemma createMigrationsTable_exists dm db w t :
  DB dm = Some db -> fault w = None ->
  find_table "migrations" (disk w) = Some t ->
  createMigrationsTable dm w
  = (Returns None,
     after w 1 [call_Exec create_migrations_query] [] (disk w) (txn w)).
Proof.
  intros Hdb Hf Ht.
  unfold createMigrationsTable, DB_Exec, deref, driver, bind, ret.
  assert (forall now, exec now create_migrations_query (disk w)
                      = (disk w, None)) as He.
  { intros now. cbn. by rewrite Ht. }
  rewrite Hdb. cbn -[fault exec]. rewrite Hf. cbn -[exec]. rewrite He.
  f_equal. world_eq.
Qed.

Section Pending.

Local Arguments query : simpl never.
Local Arguments exec : simpl never.
Local Arguments fault : simpl never.
Local Arguments Z.add : simpl never.

(** A turn for a version the ledger does not have announces the execution,
    whatever comes of it. *)
Lemma migrate_pending_announces dm db m w o w' :
  DB dm = Some db -> fault w = None ->
  hasApplied (Version m) (disk w) = Done false ->
  migrate dm m w = (o, w') ->
  executed (logs w') = (executed (logs w) ++ [Version m])%list.
Proof.
  intros Hdb Hf. unfold hasApplied, migrate, DB_QueryRow_Scan, DB_Begin,
    Tx_Exec, Tx_Commit, Tx_Rollback, deref, driver, log, bind, ret, panic.
  rewrite Hdb. cbn. rewrite Hf.
  destruct (query _ _) as [count|]; [|done]. intros [= ->]. cbn.
  intros H.
  repeat (first [progress cbn in H | case_match]); simplify_eq.
  all: cbn; unfold executed; rewrite !omap_app; cbn; by rewrite ?app_nil_r.
Qed.

End Pending.

Lemma executed_skipping l ms :
  executed (l ++ map skipping ms) = executed l.
Proof.
  unfold executed. rewrite omap_app.
  replace (omap executing (map skipping ms)) with (@nil Z);
    [by rewrite app_nil_r|].
  by induction ms.
Qed.

(** ** Transactions *)

Lemma migrate_run_txn dm m w o w' :
  migrate_run dm m w o w' -> txn w = None -> txn w' = None.
Proof. by destruct 1. Qed.

Lemma range_txn dm ms w o w' :
  range_migrations dm ms w = (o, w') -> txn w = None -> txn w' = None.
Proof.
  apply (range_ind (fun w w' => txn w = None -> txn w' = None)).
  - done.
  - auto.
  - intros. by eapply migrate_run_txn.
Qed.

Lemma InitializeDatabase_txn dm w r w' :
  InitializeDatabase dm w = (r, w') -> txn w = None -> txn w' = None.
Proof.
  intros H Ht. apply InitializeDatabase_inv in H as (r1 & w1 & HC & H).
  assert (txn w1 = None) as Ht1.
  { apply Connect_inv in HC
      as [(msg & _ & _ & ->)|[(msg & _ & _ & _ & ->)|(_ & _ & _ & ->)]];
      done. }
  destruct H as [(e & _ & _ & ->)|(dm1 & o2 & w2 & _ & HM & H)]; [done|].
  assert (txn w2 = None) as Ht2.
  { apply createMigrationsTable_inv in HM
      as [(_ & _ & ->)|[(msg & _ & ->)|(_ & _ & s & _ & ->)]]; done. }
  destruct H as [(e & _ & _ & ->)|(_ & o3 & w3 & HR & H)]; [done|].
  apply range_txn in HR; [|done].
  by destruct H as [(e & _ & _ & ->)|(_ & _ & ->)].
Qed.

(** X1. No transaction is left open.  Started with no open transaction,
    the loop of [RunMigrations], over any catalog and whatever its
    outcome, and [InitializeDatabase] end with no open transaction: every
    transaction begun was committed or rolled back. *)
Theorem no_transaction_left_open (dm : DatabaseManager) (w : World) :
  txn w = None ->
  (forall ms o w', range_migrations dm ms w = (o, w') -> txn w' = None)
  /\ (forall o w', RunMigrations dm w = (o, w') -> txn w' = None)
  /\ (forall r w', InitializeDatabase dm w = (r, w') -> txn w' = None).
Proof.
  intros Ht. split; [|split].
  - intros ms o w' H. by eapply range_txn.
  - intros o w' H. by eapply range_txn.
  - intros r w' H. by eapply InitializeDatabase_txn.
Qed.

Lemma no_transaction_left_open_witness :
  (range_migrations connected catalog_123 with_ledger).1
  = Returns (Some (execute_failed 2 "table users already exists"))
  /\ txn (range_migrations connected catalog_123 with_ledger).2 = None.
Proof.
  split; [vm_compute; reflexivity|].
  apply (proj1 (no_transaction_left_open connected with_ledger eq_refl)
           catalog_123 (range_migrations connected catalog_123 with_ledger).1).
  apply surjective_pairing.
Defined.

(** ** Runs that return [nil] *)

(** X2. A run that returns [nil] has recorded the whole catalog.  When the
    loop of [RunMigrations], over any catalog, returns [nil], every version
    of the catalog has a ledger row and the point query answers [true] for
    it: no entry is passed over. *)
Theorem nil_means_all_recorded (dm : DatabaseManager) (ms : list Migration)
    (w w' : World) (m : Migration) :
  range_migrations dm ms w = (Returns None, w') ->
  m ∈ ms ->
  hasApplied (Version m) (disk w') = Done true
  /\ ledger_has (Version m) (disk w').
Proof.
  intros H Hm. pose proof (range_success_applied _ _ _ _ H m Hm) as Ha.
  split; [done|]. by apply hasApplied_true.
Qed.

Lemma nil_means_all_recorded_witness :
  hasApplied 1 (disk (range_migrations connected catalog_21 with_ledger).2)
  = Done true
  /\ ledger_has 1 (disk (range_migrations connected catalog_21 with_ledger).2).
Proof.
  apply (nil_means_all_recorded connected catalog_21 with_ledger
           (range_migrations connected catalog_21 with_ledger).2
           create_users).
  - vm_compute. reflexivity.
  - apply list_elem_of_In. right. left. reflexivity.
Defined.

(** ** Starting again *)

(** The file holds the whole catalog. *)
Lemma settled_restart dm w r w' :
  (forall m, m ∈ GetMigrations ->
             hasApplied (Version m) (disk w) = Done true) ->
  InitializeDatabase dm w = (r, w') ->
  disk w' = disk w /\ executed (logs w') = executed (logs w) /\
  (faults w = [] ->
   r = Returns (None, set_DB (Some (SqlDB "sqlite3" (dsn dm))) dm)).
Proof.
  intros Hall H.
  assert (exists t, find_table "migrations" (disk w) = Some t) as [t Ht].
  { destruct (hasApplied_cols 1 (disk w) true) as [cs Hcs];
      [apply (Hall create_users); by left|].
    unfold cols_of in Hcs. destruct (find_table _ _); [eauto|done]. }
  assert (forall m, m ∈ GetMigrations -> ledger_has (Version m) (disk w))
    as Hl by (intros m Hm; by apply hasApplied_true, Hall).
  pose proof H as H0.
  apply InitializeDatabase_inv in H as (r1 & w1 & HC & H).
  pose proof HC as HC0.
  apply Connect_inv in HC
    as [(msg & Hf & -> & ->)|[(msg & Hf & Hp & -> & ->)|(Hf & Hp & -> & ->)]].
  - destruct H as [(e & _ & -> & ->)|(? & ? & ? & [=] & _)].
    cbn. unfold executed. rewrite omap_app, app_nil_r.
    do 2 (split; [done|]). intros Hn. by rewrite (fault_nil _ Hn) in Hf.
  - destruct H as [(e & _ & -> & ->)|(? & ? & ? & [=] & _)].
    cbn. unfold executed. rewrite omap_app, app_nil_r.
    do 2 (split; [done|]). intros Hn.
    assert (faults (enter (call_Open "sqlite3" (dsn dm)) w) = []) as Hn'
      by (cbn; by rewrite Hn).
    by rewrite (fault_nil _ Hn') in Hp.
  - destruct H as [(e & [=] & _)|(dm1 & o2 & w2 & [= <-] & HM & H)].
    set (w1 := after w 2 _ _ _ _) in *.
    assert (disk w2 = disk w /\ logs w2 = logs w1 /\
            (faults w = [] -> o2 = Returns None /\ faults w2 = [])) as
      (Hd2 & Hl2 & Hn2).
    { pose proof HM as HM0. apply createMigrationsTable_inv in HM
        as [([=] & _)|[(msg & -> & ->)|(-> & _ & s & E & ->)]].
      - cbn. rewrite app_nil_r. do 2 (split; [done|]). intros Hn.
        rewrite (createMigrationsTable_exists _ (SqlDB "sqlite3" (dsn dm))
                   w1 t) in HM0; [done|done| |done].
        apply fault_nil. cbn. by rewrite Hn.
      - apply create_migrations_exec in E. cbn in E. rewrite Ht in E.
        subst s. cbn. rewrite app_nil_r. do 2 (split; [done|]).
        intros Hn. split; [done|]. by rewrite Hn. }
    destruct H as [(e & -> & -> & ->)|(-> & o3 & w3 & HR & H)].
    { rewrite Hd2, Hl2. cbn. unfold executed. rewrite omap_app, app_nil_r.
      do 2 (split; [done|]). intros Hn. by destruct (Hn2 Hn). }
    pose proof HR as HR0.
    apply range_skip_all in HR as (Hd3 & _ & He3 & _);
      [|intros m Hm; rewrite Hd2; by apply Hl].
    assert (executed (logs w3) = executed (logs w)) as He.
    { rewrite He3, Hl2. cbn. unfold executed. by rewrite omap_app, app_nil_r. }
    assert (faults w = [] -> o3 = Returns None) as Hn3.
    { intros Hn. destruct (Hn2 Hn) as [_ Hf2].
      destruct (range_skip_all_nil (set_DB (Some (SqlDB "sqlite3" (dsn dm))) dm)
                  (SqlDB "sqlite3" (dsn dm)) GetMigrations w2 eq_refl Hf2)
        as (w3' & Hrun & _); [intros m Hm; rewrite Hd2; by apply Hall|].
      unfold RunMigrations in HR0. congruence. }
    destruct H as [(e & -> & -> & ->)|(-> & -> & ->)].
    + rewrite Hd3, Hd2. do 2 (split; [done|]). intros Hn. by apply Hn3 in Hn.
    + cbn. rewrite Hd3, Hd2. split; [done|]. split; [|done].
      unfold executed in *. by rewrite omap_app, app_nil_r.
Qed.

(** X3. Start-up is idempotent across restarts.  After a start-up that
    returned [nil], the manager holds the opened handle, and any later
    start-up on a file with the same contents, by any manager and whatever
    the driver does, leaves the file as it is and starts no execution; it
    returns [nil] when no call fails. *)
Theorem InitializeDatabase_restart (dm : DatabaseManager) (w : World)
    (dm1 : DatabaseManager) (w1 : World) :
  InitializeDatabase dm w = (Returns (None, dm1), w1) ->
  DB dm1 = Some (SqlDB "sqlite3" (dsn dm))
  /\ forall dm2 w2 r w3,
      disk w2 = disk w1 ->
      InitializeDatabase dm2 w2 = (r, w3) ->
      disk w3 = disk w1 /\ executed (logs w3) = executed (logs w2) /\
      (faults w2 = [] ->
       r = Returns (None, set_DB (Some (SqlDB "sqlite3" (dsn dm2))) dm2)).
Proof.
  intros H. apply InitializeDatabase_inv in H as (r1 & w0 & HC & H).
  apply Connect_inv in HC
    as [(msg & _ & -> & _)|[(msg & _ & _ & -> & _)|(_ & _ & -> & _)]].
  - by destruct H as [(e & _ & [=] & _)|(? & ? & ? & [=] & _)].
  - by destruct H as [(e & _ & [=] & _)|(? & ? & ? & [=] & _)].
  - destruct H as [(e & [=] & _)|(dm' & o2 & w2' & [= <-] & HM & H)].
    destruct H as [(e & _ & [=] & _)|(_ & o3 & w3' & HR & H)].
    destruct H as [(e & _ & [=] & _)|(-> & [= ->] & ->)].
    split; [done|]. intros dm2 w2 r w3 Hd H2.
    pose proof (range_success_applied _ _ _ _ HR) as Hall.
    rewrite <- Hd. apply (settled_restart dm2 w2 r w3); [|done].
    intros m Hm. rewrite Hd. cbn. by apply Hall.
Qed.

Lemma InitializeDatabase_restart_witness :
  DB connected = Some (SqlDB "sqlite3" (dsn manager))
  /\ forall dm2 w2 r w3,
      disk w2 = disk (InitializeDatabase manager (fresh [])).2 ->
      InitializeDatabase dm2 w2 = (r, w3) ->
      disk w3 = disk (InitializeDatabase manager (fresh [])).2 /\
      executed (logs w3) = executed (logs w2) /\
      (faults w2 = [] ->
       r = Returns (None, set_DB (Some (SqlDB "sqlite3" (dsn dm2))) dm2)).
Proof.
  apply (InitializeDatabase_restart manager (fresh []) connected
           (InitializeDatabase manager (fresh [])).2).
  vm_compute. reflexivity.
Defined.

(** X4. A run after an aborted run resumes at the migration that failed.
    When the loop stopped at a migration because the transaction could not
    begin, or the body or the ledger insert failed, a later run over the same
    catalog on that file, with a connection and no failing call, skips the
    migrations before it and starts its executions with that migration. *)
Theorem rerun_resumes (dm : DatabaseManager) (db : sqlDB)
    (pre post : list Migration) (m : Migration) (w w1 w' : World)
    (e : error) (msg : string) :
  DB dm = Some db ->
  range_migrations dm pre w = (Returns None, w1) ->
  migrate dm m w1 = (Returns (Some e), w') ->
  e = begin_failed msg \/ e = execute_failed (Version m) msg
  \/ e = record_failed (Version m) msg ->
  forall w2 o3 w3,
    disk w2 = disk w' -> faults w2 = [] ->
    range_migrations dm (pre ++ m :: post) w2 = (o3, w3) ->
    exists vs,
      executed (logs w3) = (executed (logs w2) ++ Version m :: vs)%list /\
      vs `sublist_of` (Version <$> post).
Proof.
  intros Hdb Hpre Hm He w2 o3 w3 Hd Hf H.
  pose proof (range_success_applied _ _ _ _ Hpre) as Hall.
  apply migrate_inv in Hm.
  assert (disk w' = disk w1 /\
          hasApplied (Version m) (disk w1) = Done false) as [Hd' Hp].
  { destruct He as [->|[->| ->]]; by inversion Hm. }
  rewrite range_app in H.
  destruct (range_skip_all_nil dm db pre w2 Hdb Hf)
    as (w2' & Hrun & Hf' & Hd2 & Hl2).
  { intros m' Hm'. rewrite Hd, Hd'. by apply Hall. }
  rewrite Hrun, range_cons in H.
  destruct (migrate dm m w2') as [o4 w4] eqn:E4.
  assert (executed (logs w4) = (executed (logs w2) ++ [Version m])%list)
    as He4.
  { assert (hasApplied (Version m) (disk w2') = Done false) as Hp2
      by (by rewrite Hd2, Hd, Hd').
    rewrite (migrate_pending_announces _ _ _ _ _ _ Hdb (fault_nil _ Hf')
               Hp2 E4).
    by rewrite Hl2, executed_skipping. }
  destruct o4 as [[e4|]|msg4].
  - injection H as <- <-. exists []. split; [done|]. apply sublist_nil_l.
  - apply range_executed in H as (vs & Hvs & Hsub). exists vs.
    split; [|done]. by rewrite Hvs, He4, <- app_assoc.
  - injection H as <- <-. exists []. split; [done|]. apply sublist_nil_l.
Qed.

Lemma rerun_resumes_witness :
  exists vs,
    executed
      (logs (range_migrations connected
               ([create_users] ++ create_orders_twice :: [create_trades])
               (fresh_on
                  (disk (migrate connected create_orders_twice
                           (range_migrations connected [create_users]
                              with_ledger).2).2))).2)
    = (executed
         (logs (fresh_on
                  (disk (migrate connected create_orders_twice
                           (range_migrations connected [create_users]
                              with_ledger).2).2)))
       ++ Version create_orders_twice :: vs)%list /\
    vs `sublist_of` (Version <$> [create_trades]).
Proof.
  refine (rerun_resumes connected
            (SqlDB "sqlite3" "trader_backend.db?_foreign_keys=on")
            [create_users] [create_trades] create_orders_twice with_ledger
            (range_migrations connected [create_users] with_ledger).2
            (migrate connected create_orders_twice
               (range_migrations connected [create_users] with_ledger).2).2
            (execute_failed 2 "table users already exists")
            "table users already exists" eq_refl _ _ _
            (fresh_on
               (disk (migrate connected create_orders_twice
                        (range_migrations connected [create_users]
                           with_ledger).2).2))
            (range_migrations connected
               ([create_users] ++ create_orders_twice :: [create_trades])
               (fresh_on
                  (disk (migrate connected create_orders_twice
                           (range_migrations connected [create_users]
                              with_ledger).2).2))).1
            _ eq_refl eq_refl (surjective_pairing _)).
  - vm_compute. reflexivity.
  - vm_compute. reflexivity.
  - right. left. reflexivity.
Defined.

(** ** A manager without a handle *)

Lemma range_queries_nil dm query rest w :
  DB dm = None ->
  range_queries dm (query :: rest) w = (Panics nil_dereference, w).
Proof.
  intros Hdb. cbn [range_queries]. unfold DB_Exec, deref, bind, panic.
  by rewrite Hdb.
Qed.

(** ** The states of a new file *)

Lemma startup_state_create now s s' e :
  startup_state s ->
  exec now create_migrations_query s = (s', e) ->
  s' = s \/ (s = Sqlite.empty /\ s' = ledger_only /\ e = None).
Proof.
  intros [->|[->|[t ->]]] E; vm_compute in E; injection E as <- <-; auto.
Qed.

Lemma startup_state_migrate dm w o w' :
  disk w = ledger_only \/ (exists t, disk w = migrated t) ->
  migrate_run dm create_users w o w' ->
  (disk w' = disk w /\
   (o = Returns None -> exists t, disk w = migrated t))
  \/ (disk w = ledger_only /\ o = Returns None /\
      disk w' = migrated (clock w + 4)).
Proof.
  intros Hs Hrun.
  inversion Hrun as [| |Hp| | | | |t1 t2 Hp Hb Hr]; subst; cbn;
    try (left; split; [done|]; by intros [=]).
  - left. split; [done|]. intros _. destruct Hs as [Hs|Hs]; [|done].
    rewrite Hs in Hp. vm_compute in Hp. discriminate Hp.
  - right. destruct Hs as [Hs|[t Hs]]; rewrite Hs in *.
    + split; [done|]. split; [done|].
      generalize dependent (clock w). intros now Hb Hr.
      vm_compute in Hb. injection Hb as <-.
      vm_compute in Hr. injection Hr as <-. vm_compute. reflexivity.
    + vm_compute in Hp. discriminate Hp.
Qed.

Lemma startup_state_users s :
  startup_state s -> (In "users" (table_names s) <-> ledger_has 1 s).
Proof.
  intros [->|[->|[t ->]]]; split.
  - cbn. tauto.
  - intros (r & Hr & _). inversion Hr.
  - cbn. intuition discriminate.
  - intros (r & Hr & _). inversion Hr.
  - intros _. eexists. split; [apply list_elem_of_In; left; reflexivity|].
    reflexivity.
  - intros _. cbn. tauto.
Qed.

(** X6. Schema and ledger never disagree on a new file.  Starting from an
    empty file, after any number of start-ups, each failing wherever the
    driver makes it fail, the file is empty, or holds the ledger table
    alone, or holds the ledger with the row of version 1 together with the
    [users] table and its two indexes: [users] exists exactly when the ledger
    has version 1.  A start-up that returns [nil] ends in the last state. *)
Theorem InitializeDatabase_keeps_startup_state (dm : DatabaseManager)
    (w : World) (r : outcome (option error * DatabaseManager)) (w' : World) :
  startup_state (disk w) ->
  InitializeDatabase dm w = (r, w') ->
  startup_state (disk w')
  /\ (In "users" (table_names (disk w')) <-> ledger_has 1 (disk w'))
  /\ (forall dm', r = Returns (None, dm') ->
        exists t, disk w' = migrated t).
Proof.
  intros Hs H.
  assert (startup_state (disk w') /\
          (forall dm', r = Returns (None, dm') ->
                       exists t, disk w' = migrated t)) as [Hs' Hok].
  { apply InitializeDatabase_inv in H as (r1 & w1 & HC & H).
    assert (disk w1 = disk w) as Hw1.
    { apply Connect_inv in HC
        as [(msg & _ & _ & ->)|[(msg & _ & _ & _ & ->)|(_ & _ & _ & ->)]];
        done. }
    destruct H as [(e & -> & -> & ->)|(dm1 & o2 & w2 & _ & HM & H)].
    { rewrite Hw1. split; [done|]. intros dm' [=]. }
    apply createMigrationsTable_inv in HM
      as [(_ & -> & ->)|[(msg & -> & ->)|(-> & _ & s & E & ->)]].
    - destruct H as [(e & [=] & _)|([=] & _)].
    - destruct H as [(e & _ & -> & ->)|([=] & _)].
      cbn. rewrite Hw1. split; [done|]. intros dm' [=].
    - rewrite Hw1 in E.
      assert (s = ledger_only \/ exists t, s = migrated t) as Hs2.
      { destruct (startup_state_create _ _ _ _ Hs E) as [->|(_ & -> & _)];
          [|by left].
        destruct Hs as [Hs|[Hs|Hs]]; [|by left|by right].
        rewrite Hs in E. vm_compute in E. discriminate E. }
      assert (startup_state s) as Hss
        by (destruct Hs2 as [->|[t ->]]; [right; by left|right; right; eauto]).
      destruct H as [(e & [=] & _)|(_ & o3 & w3 & HR & H)].
      apply RunMigrations_inv in HR.
      apply startup_state_migrate in HR; [|done]. cbn in HR.
      destruct H as [(e & -> & -> & ->)|(-> & -> & ->)].
      + destruct HR as [[-> _]|(_ & [=] & _)]. split; [done|]. intros dm' [=].
      + cbn. destruct HR as [[Hd Ht]|(_ & _ & Hd)]; rewrite Hd.
        * split; [done|]. intros dm' _. by apply Ht.
        * split; [right; right; eauto|]. eauto. }
  split; [done|]. split; [by apply startup_state_users|done].
Qed.

Lemma InitializeDatabase_keeps_startup_state_witness :
  startup_state
    (disk (InitializeDatabase manager
             (fresh [None; None; None; None; None;
                     Some "disk I/O error"])).2)
  /\ (In "users"
        (table_names
           (disk (InitializeDatabase manager
                    (fresh [None; None; None; None; None;
                            Some "disk I/O error"])).2))
      <-> ledger_has 1
            (disk (InitializeDatabase manager
                     (fresh [None; None; None; None; None;
                             Some "disk I/O error"])).2))
  /\ (forall dm',
        (InitializeDatabase manager
           (fresh [None; None; None; None; None;
                   Some "disk I/O error"])).1 = Returns (None, dm') ->
        exists t,
          disk (InitializeDatabase manager
                  (fresh [None; None; None; None; None;
                          Some "disk I/O error"])).2 = migrated t).
Proof.
  apply (InitializeDatabase_keeps_startup_state manager
           (fresh [None; None; None; None; None; Some "disk I/O error"])).
  - left. reflexivity.
  - apply surjective_pairing.
Defined.

(** ** Sample data *)

Lemma replace_table_names t ts :
  map tbl_name (replace_table t ts) = map tbl_name ts.
Proof.
  induction ts as [|t0 ts IH]; cbn; [done|].
  destruct (String.eqb (tbl_name t0) (tbl_name t)) eqn:E; cbn.
  - apply String.eqb_eq in E. by rewrite E.
  - by rewrite IH.
Qed.

(** An [INSERT] that succeeds adds its row at the end of its table or, the
    row ignored, none; it moves the counter of the table. *)
Lemma insert_stmt_inv now ign table cols vals s s' :
  exec_stmt now (INSERT ign table cols vals) s = Done s' ->
  exists t rows,
    find_table table s = Some t /\
    ((violation t (new_row now t cols vals) (tbl_cols t) <> None /\
      rows = tbl_rows t)
     \/ (violation t (new_row now t cols vals) (tbl_cols t) = None /\
         rows = (tbl_rows t ++ [new_row now t cols vals])%list)) /\
    s' = {| tables :=
              replace_table
                {| tbl_name := tbl_name t; tbl_cols := tbl_cols t;
                   tbl_rows := rows;
                   tbl_seq := row_id t (new_row now t cols vals) |}
                (tables s);
            indexes := indexes s |}.
Proof.
  cbn. destruct (find_table table s) as [t|] eqn:Ht; [|done].
  destruct (find _ cols); [done|]. destruct (negb _); [done|].
  destruct (violation _ _ _) eqn:Hv.
  - destruct ign; [|done]. intros [= <-]. exists t, (tbl_rows t).
    split; [done|]. split; [left; split; [congruence|done]|done].
  - intros [= <-]. exists t. eexists. split; [done|]. split; [by right|done].
Qed.

Lemma find_table_replace name table t t' s :
  find_table table s = Some t -> tbl_name t' = tbl_name t ->
  find_table name {| tables := replace_table t' (tables s);
                     indexes := indexes s |}
  = if String.eqb table name then Some t' else find_table name s.
Proof.
  intros Ht Hn. pose proof (find_table_name _ _ _ Ht) as Hn'.
  unfold find_table in *. cbn.
  erewrite find_replace_table; [|by rewrite Hn, Hn'].
  by rewrite Hn, Hn'.
Qed.

Lemma insert_effect now ign table cols vals s s' :
  exec_stmt now (INSERT ign table cols vals) s = Done s' ->
  indexes s' = indexes s /\ table_names s' = table_names s /\
  (forall name, cols_of name s' = cols_of name s) /\
  (forall name, name <> table -> rows_of name s' = rows_of name s) /\
  rows_of table s `prefix_of` rows_of table s' /\
  (List.length (rows_of table s') <= S (List.length (rows_of table s)))%nat.
Proof.
  intros H. apply insert_stmt_inv in H as (t & rows & Ht & Hrows & ->).
  split; [done|]. split; [apply replace_table_names|].
  split; [|split; [|split]].
  - intros name. unfold cols_of. erewrite find_table_replace by (exact Ht || reflexivity).
    destruct (String.eqb table name) eqn:E; [|done].
    apply String.eqb_eq in E as <-. by rewrite Ht.
  - intros name Hne. unfold rows_of.
    erewrite find_table_replace by (exact Ht || reflexivity).
    destruct (String.eqb table name) eqn:E; [|done].
    apply String.eqb_eq in E. congruence.
  - unfold rows_of. erewrite find_table_replace by (exact Ht || reflexivity).
    rewrite String.eqb_refl, Ht. cbn.
    destruct Hrows as [[_ ->]|[_ ->]]; [done|by apply prefix_app_r].
  - unfold rows_of. erewrite find_table_replace by (exact Ht || reflexivity).
    rewrite String.eqb_refl, Ht. cbn.
    destruct Hrows as [[_ ->]|[_ ->]]; [lia|].
    rewrite List.length_app. cbn. lia.
Qed.

Lemma exec_single now st s s' e :
  exec now [st] s = (s', e) ->
  (e = None /\ exec_stmt now st s = Done s')
  \/ (exists msg, e = Some msg /\ s' = s /\ exec_stmt now st s = Failed msg).
Proof.
  cbn [exec]. destruct (exec_stmt now st s) as [s1|msg].
  - intros [= <- <-]. by left.
  - intros [= <- <-]. right. eauto.
Qed.

Lemma sample_step_refl s : sample_step 0 s s.
Proof. repeat split; try done. Qed.

Lemma sample_step_trans n m s1 s2 s3 :
  sample_step n s1 s2 -> sample_step m s2 s3 -> sample_step (m + n) s1 s3.
Proof.
  intros (Hi & Ht & Hc & Hr & Hp & Hl) (Hi' & Ht' & Hc' & Hr' & Hp' & Hl').
  split; [congruence|]. split; [congruence|].
  split; [intros name; by rewrite Hc'|].
  split; [intros name Hn; by rewrite Hr', Hr|].
  split; [by etrans|]. lia.
Qed.

Lemma sample_step_weaken n m s s' :
  (n <= m)%nat -> sample_step n s s' -> sample_step m s s'.
Proof.
  intros Hnm (Hi & Ht & Hc & Hr & Hp & Hl). repeat split; try done. lia.
Qed.

Lemma sample_step_insert now username email s s' :
  exec_stmt now (insert_user username email) s = Done s' ->
  sample_step 1 s s'.
Proof. intros H. by apply insert_effect in H. Qed.

(** The runs of [AddSampleData]. *)
Lemma AddSampleData_inv dm w o w' :
  AddSampleData dm w = (o, w') ->
  (DB dm = None /\ o = Panics nil_dereference /\
   w' = add_log adding_sample_data w)
  \/ (exists msg,
        (fault w = Some msg \/
         exec_stmt (clock w + 1) insert_john (disk w) = Failed msg) /\
        o = Returns (Some (sample_failed msg)) /\
        w' = after w 1 [call_Exec [insert_john]] [adding_sample_data]
               (disk w) (txn w))
  \/ (exists s1 msg,
        exec_stmt (clock w + 1) insert_john (disk w) = Done s1 /\
        (fault (enter (call_Exec [insert_john]) w) = Some msg \/
         exec_stmt (clock w + 2) insert_jane s1 = Failed msg) /\
        o = Returns (Some (sample_failed msg)) /\
        w' = after w 2 [call_Exec [insert_john]; call_Exec [insert_jane]]
               [adding_sample_data] s1 (txn w))
  \/ (exists s1 s2,
        fault w = None /\
        fault (enter (call_Exec [insert_john]) w) = None /\
        exec_stmt (clock w + 1) insert_john (disk w) = Done s1 /\
        exec_stmt (clock w + 2) insert_jane s1 = Done s2 /\
        o = Returns None /\
        w' = after w 2 [call_Exec [insert_john]; call_Exec [insert_jane]]
               [adding_sample_data; sample_data_added] s2 (txn w)).
Proof.
  destruct (DB dm) as [db|] eqn:Hdb.
  2:{ unfold AddSampleData, userQueries. unfold bind at 1, log.
      unfold bind at 1. rewrite range_queries_nil by done.
      intros [= <- <-]. by left. }
  intros H. right.
  unfold AddSampleData, userQueries in H. cbn [range_queries] in H.
  rewrite Hdb in H. unfold bind, log, ret in H.
  destruct (DB_Exec (Some db) _ (add_log _ w)) as [o1 w1] eqn:E1.
  apply DB_Exec_inv in E1
    as [([=] & _)|[(msg & Hf & -> & ->)|(s1 & e1 & Hf & E1 & -> & ->)]].
  { injection H as <- <-. left. exists msg.
    split; [by left|]. split; [done|]. world_eq. }
  cbn [clock add_log disk] in E1.
  apply exec_single in E1 as [[-> E1]|(msg & -> & -> & E1)].
  2:{ injection H as <- <-. left. exists msg.
      split; [by right|]. split; [done|]. world_eq. }
  right.
  destruct (DB_Exec (Some db) _ (after _ _ _ _ _ _)) as [o2 w2] eqn:E2.
  apply DB_Exec_inv in E2
    as [([=] & _)|[(msg & Hf2 & -> & ->)|(s2 & e2 & Hf2 & E2 & -> & ->)]].
  { injection H as <- <-. left. exists s1, msg.
    split; [done|]. split; [by left|]. split; [done|]. world_eq. }
  cbn [clock after add_log disk] in E2.
  replace (clock w + Z.of_nat 1 + 1) with (clock w + 2) in E2 by lia.
  apply exec_single in E2 as [[-> E2]|(msg & -> & -> & E2)].
  2:{ injection H as <- <-. left. exists s1, msg.
      split; [done|]. split; [by right|]. split; [done|]. world_eq. }
  injection H as <- <-. right. exists s1, s2.
  do 5 (split; [done|]). world_eq.
Qed.

(** X7. [AddSampleData] touches the rows of [users] and nothing else.
    Whatever its outcome, it leaves the indexes, the tables and their
    columns, the ledger and the rows of every other table as they were, keeps
    the rows [users] had as the first rows of [users], adds at most two, and
    leaves the open transaction alone. *)
Theorem AddSampleData_touches_users_only (dm : DatabaseManager) (w : World)
    (o : outcome (option error)) (w' : World) :
  AddSampleData dm w = (o, w') ->
  indexes (disk w') = indexes (disk w)
  /\ table_names (disk w') = table_names (disk w)
  /\ (forall name, cols_of name (disk w') = cols_of name (disk w))
  /\ (forall name, name <> "users" ->
                   rows_of name (disk w') = rows_of name (disk w))
  /\ ledger_rows (disk w') = ledger_rows (disk w)
  /\ rows_of "users" (disk w) `prefix_of` rows_of "users" (disk w')
  /\ (List.length (rows_of "users" (disk w'))
      <= 2 + List.length (rows_of "users" (disk w)))%nat
  /\ txn w' = txn w.
Proof.
  intros H.
  assert (sample_step 2 (disk w) (disk w') /\ txn w' = txn w)
    as [(Hi & Ht & Hc & Hr & Hp & Hl) Htx].
  { apply AddSampleData_inv in H
      as [(_ & _ & ->)|[(msg & _ & _ & ->)|[(s1 & msg & E1 & _ & _ & ->)|
          (s1 & s2 & _ & _ & E1 & E2 & _ & ->)]]]; cbn; (split; [|done]).
    - apply (sample_step_weaken 0); [lia|apply sample_step_refl].
    - apply (sample_step_weaken 0); [lia|apply sample_step_refl].
    - apply (sample_step_weaken 1); [lia|by eapply sample_step_insert].
    - eapply (sample_step_trans 1 1); by eapply sample_step_insert. }
  do 4 (split; [done|]). split; [by apply Hr|]. done.
Qed.

Lemma AddSampleData_touches_users_only_witness :
  indexes (disk (AddSampleData connected started).2) = indexes (disk started)
  /\ table_names (disk (AddSampleData connected started).2)
     = table_names (disk started)
  /\ (forall name, cols_of name (disk (AddSampleData connected started).2)
                   = cols_of name (disk started))
  /\ (forall name, name <> "users" ->
                   rows_of name (disk (AddSampleData connected started).2)
                   = rows_of name (disk started))
  /\ ledger_rows (disk (AddSampleData connected started).2)
     = ledger_rows (disk started)
  /\ rows_of "users" (disk started)
     `prefix_of` rows_of "users" (disk (AddSampleData connected started).2)
  /\ (List.length (rows_of "users" (disk (AddSampleData connected started).2))
      <= 2 + List.length (rows_of "users" (disk started)))%nat
  /\ txn (AddSampleData connected started).2 = txn started.
Proof.
  apply (AddSampleData_touches_users_only connected started
           (AddSampleData connected started).1).
  apply surjective_pairing.
Defined.

(** X8. The errors of [AddSampleData].  An error it returns is the driver's
    error wrapped as [failed to insert sample data], the closing log line is
    not written, and the statement after the failing one is not sent.  The
    two inserts are not one transaction: when the second fails, what the
    first did stays in the file.  Without a [users] table the first insert
    fails and the file is left as it was. *)
Theorem AddSampleData_errors (dm : DatabaseManager) (w : World) :
  (forall e w',
      AddSampleData dm w = (Returns (Some e), w') ->
      exists msg,
        e = sample_failed msg /\
        logs w' = (logs w ++ [adding_sample_data])%list /\
        ((calls w' = (calls w ++ [call_Exec [insert_john]])%list /\
          disk w' = disk w)
         \/ (calls w' = (calls w ++ [call_Exec [insert_john];
                                      call_Exec [insert_jane]])%list /\
             exec_stmt (clock w + 1) insert_john (disk w)
             = Done (disk w'))))
  /\ (forall db,
      DB dm = Some db -> fault w = None ->
      find_table "users" (disk w) = None ->
      exists w',
        AddSampleData dm w
        = (Returns (Some (sample_failed "no such table: users")), w') /\
        disk w' = disk w /\
        Error (sample_failed "no such table: users")
        = "failed to insert sample data: no such table: users").
Proof.
  split.
  - intros e w' H. apply AddSampleData_inv in H
      as [(_ & [=] & _)|[(msg & _ & [= ->] & ->)|
          [(s1 & msg & E1 & _ & [= ->] & ->)|(s1 & s2 & _ & _ & _ & _ & [=] & _)]]].
    + exists msg. split; [done|]. split; [done|]. by left.
    + exists msg. split; [done|]. split; [done|]. by right.
  - intros db Hdb Hf Hu.
    destruct (AddSampleData dm w) as [o w'] eqn:E. exists w'.
    apply AddSampleData_inv in E
      as [(? & _)|[(msg & Hc & -> & ->)|
          [(s1 & msg & E1 & _)|(s1 & s2 & _ & _ & E1 & _)]]].
    + congruence.
    + destruct Hc as [Hc|Hc]; [congruence|].
      cbn in Hc. rewrite Hu in Hc. injection Hc as <-.
      split; [done|]. split; [done|]. vm_compute. reflexivity.
    + cbn in E1. by rewrite Hu in E1.
    + cbn in E1. by rewrite Hu in E1.
Qed.

Lemma AddSampleData_errors_witness :
  exists w',
    AddSampleData connected with_ledger
    = (Returns (Some (sample_failed "no such table: users")), w') /\
    disk w' = disk with_ledger /\
    Error (sample_failed "no such table: users")
    = "failed to insert sample data: no such table: users".
Proof.
  apply (proj2 (AddSampleData_errors connected with_ledger)
           (SqlDB "sqlite3" "trader_backend.db?_foreign_keys=on")).
  - reflexivity.
  - reflexivity.
  - vm_compute. reflexivity.
Defined.

(** ** Sample data, a second time *)














(** X10. The sample data fits the schema of the first migration.  On the
    file a start-up that returned [nil] leaves behind, with a connection and
    no failing call, [AddSampleData] returns [nil] and [users] holds
    exactly its two users, with the ids 1 and 2. *)
Theorem AddSampleData_after_startup (dm : DatabaseManager) (db : sqlDB)
    (t : Z) (w : World) :
  DB dm = Some db ->
  disk w = migrated t ->
  faults w = [] ->
  exists w',
    AddSampleData dm w = (Returns None, w') /\
    rows_of "users" (disk w')
    = [[("id", VInt 1); ("username", VText "john_doe");
        ("email", VText "john@example.com");
        ("created_at", VTime (clock w + 1));
        ("updated_at", VTime (clock w + 1))];
       [("id", VInt 2); ("username", VText "jane_smith");
        ("email", VText "jane@example.com");
        ("created_at", VTime (clock w + 2));
        ("updated_at", VTime (clock w + 2))]] /\
    ledger_rows (disk w') = ledger_rows (disk w).
Proof.
  intros Hdb Hd Hf.
  destruct (AddSampleData dm w) as [o w'] eqn:E. exists w'.
  assert (fault w = None) as Hf1 by by apply fault_nil.
  assert (fault (enter (call_Exec [insert_john]) w) = None) as Hf2
    by (apply fault_nil; cbn; by rewrite Hf).
  apply AddSampleData_inv in E
    as [(? & _)|[(msg & Hc & _)|
        [(s1 & msg & E1 & Hc & _)|(s1 & s2 & _ & _ & E1 & E2 & -> & ->)]]].
  - congruence.
  - exfalso. destruct Hc as [Hc|Hc]; [congruence|].
    rewrite Hd in Hc. vm_compute in Hc. discriminate Hc.
  - exfalso. destruct Hc as [Hc|Hc]; [congruence|].
    rewrite Hd in E1.
    generalize dependent (clock w). intros now E1 Hc.
    vm_compute in E1. injection E1 as <-.
    vm_compute in Hc. discriminate Hc.
  - split; [done|]. cbn [disk after]. rewrite Hd in E1. rewrite Hd.
    generalize dependent (clock w). intros now E1 E2.
    vm_compute in E1. injection E1 as <-.
    vm_compute in E2. injection E2 as <-.
    split; vm_compute; reflexivity.
Qed.

Lemma AddSampleData_after_startup_witness :
  exists w',
    AddSampleData connected started = (Returns None, w') /\
    rows_of "users" (disk w')
    = [[("id", VInt 1); ("username", VText "john_doe");
        ("email", VText "john@example.com");
        ("created_at", VTime (clock started + 1));
        ("updated_at", VTime (clock started + 1))];
       [("id", VInt 2); ("username", VText "jane_smith");
        ("email", VText "jane@example.com");
        ("created_at", VTime (clock started + 2));
        ("updated_at", VTime (clock started + 2))]] /\
    ledger_rows (disk w') = ledger_rows (disk started).
Proof.
  apply (AddSampleData_after_startup connected
           (SqlDB "sqlite3" "trader_backend.db?_foreign_keys=on") 7 started).
  - reflexivity.
  - vm_compute. reflexivity.
  - vm_compute. reflexivity.
Defined.

(** ** What the log says *)

Lemma migrate_run_logs dm m w o w' :
  migrate_run dm m w o w' ->
  exists ls,
    logs w' = (logs w ++ ls)%list /\
    forall m', In (succeeded m') ls \/ In (skipping m') ls ->
               Version m' = Version m /\ o = Returns None.
Proof.
  destruct 1; cbn; unfold skipping, succeeded, announcing.
  1: exists []; split; [by rewrite app_nil_r|].
  2-8: eexists; (split; [reflexivity|]).
  all: intros m' Hin; cbn in Hin.
  all: intuition (try discriminate); simplify_eq; done.
Qed.

Lemma range_logs dm ms w o w' :
  range_migrations dm ms w = (o, w') ->
  exists ls,
    logs w' = (logs w ++ ls)%list /\
    forall m', In (succeeded m') ls \/ In (skipping m') ls ->
               hasApplied (Version m') (disk w') = Done true.
Proof.
  revert w. induction ms as [|m ms IH]; intros w.
  - intros [= <- <-]. exists []. rewrite app_nil_r. split; [done|].
    intros m' [[]|[]].
  - rewrite range_cons.
    destruct (migrate dm m w) as [[[e|]|msg] w1] eqn:E; apply migrate_inv in E;
      destruct (migrate_run_logs _ _ _ _ _ E) as (ls1 & Hl1 & H1).
    + intros [= <- <-]. exists ls1. split; [done|].
      intros m' Hin. by destruct (H1 m' Hin) as [_ [=]].
    + intros H. pose proof H as H0.
      apply IH in H as (ls2 & Hl2 & H2).
      exists (ls1 ++ ls2)%list. rewrite Hl2, Hl1, app_assoc.
      split; [done|]. intros m' Hin.
      assert ((In (succeeded m') ls1 \/ In (skipping m') ls1)
              \/ (In (succeeded m') ls2 \/ In (skipping m') ls2)) as [Hin1|Hin2].
      { rewrite !in_app_iff in Hin. tauto. }
      * destruct (H1 m' Hin1) as [-> _].
        eapply range_keeps_applied; [done|]. by eapply migrate_run_applied.
      * by apply H2.
    + intros [= <- <-]. exists ls1. split; [done|].
      intros m' Hin. by destruct (H1 m' Hin) as [_ [=]].
Qed.

(** X11. The log of a run is sound.  For every catalog and outcome, a
    migration the run logs as executed successfully, or as already executed
    and skipped, has its version in the ledger when the run ends. *)
Theorem log_lines_are_sound (dm : DatabaseManager) (ms : list Migration)
    (w : World) (o : outcome (option error)) (w' : World) :
  range_migrations dm ms w = (o, w') ->
  exists ls,
    logs w' = (logs w ++ ls)%list /\
    forall m, In (succeeded m) ls \/ In (skipping m) ls ->
              hasApplied (Version m) (disk w') = Done true /\
              ledger_has (Version m) (disk w').
Proof.
  intros H. apply range_logs in H as (ls & Hl & H). exists ls.
  split; [done|]. intros m Hin. split; [by apply H|].
  by apply hasApplied_true, H.
Qed.

Lemma log_lines_are_sound_witness :
  exists ls,
    logs (range_migrations connected catalog_123 with_ledger).2
    = (logs with_ledger ++ ls)%list /\
    forall m, In (succeeded m) ls \/ In (skipping m) ls ->
              hasApplied (Version m)
                (disk (range_migrations connected catalog_123 with_ledger).2)
              = Done true /\
              ledger_has (Version m)
                (disk (range_migrations connected catalog_123 with_ledger).2).
Proof.
  apply (log_lines_are_sound connected catalog_123 with_ledger
           (range_migrations connected catalog_123 with_ledger).1).
  apply surjective_pairing.
Defined.
